(** * llm-graphical-chatbot: the markdown formatter and the chat transcript

    A shallow embedding of [src/llm_helper.py] (class [LLMHelper]) and of the
    transcript operations of [src/main.py] (class [DataChatBotDemo]), with the
    welcome markup of [src/styles.py].

    A Python [str] is a sequence of Unicode code points; it is modelled as a
    list of code points in [N].  Every string operation the code uses
    ([strip], [startswith], slicing, [split], [join], [re.sub]) is defined on
    that representation. *)

From Stdlib Require Import Ascii String List NArith Arith Bool Lia.
Import ListNotations.

Local Open Scope N_scope.
Local Open Scope list_scope.

(** ** Python strings *)

Module PyStr.

#[warnings="-notation-for-abbreviation"]
Notation char := N (only parsing).
#[warnings="-notation-for-abbreviation"]
Notation str := (list N) (only parsing).

(** An ASCII literal of the source, as code points. *)
Definition py (s : string) : str :=
  map N_of_ascii (list_ascii_of_string s).

Definition NL : char := 10.      (* '\n' *)
Definition DQ : str := [34].     (* the double quote *)

(** [n] spaces, the indentation inside the triple-quoted templates. *)
Definition indent (n : nat) : str := repeat 32 n.

(** [str.isspace] on one code point: the Unicode white space of CPython. *)
Definition isspace (c : char) : bool :=
  ((9 <=? c) && (c <=? 13)) || ((28 <=? c) && (c <=? 32))
  || (c =? 133) || (c =? 160) || (c =? 5760)
  || ((8192 <=? c) && (c <=? 8202))
  || (c =? 8232) || (c =? 8233) || (c =? 8239) || (c =? 8287) || (c =? 12288).

Fixpoint lstrip (s : str) : str :=
  match s with
  | c :: s' => if isspace c then lstrip s' else s
  | [] => []
  end.

Definition rstrip (s : str) : str := rev (lstrip (rev s)).

(** [s.strip()] *)
Definition strip (s : str) : str := rstrip (lstrip s).

(** [s.startswith(prefix)] *)
Fixpoint startswith (s prefix : str) {struct prefix} : bool :=
  match prefix, s with
  | [], _ => true
  | p :: prefix', c :: s' => (c =? p) && startswith s' prefix'
  | _ :: _, [] => false
  end.

(** [s[n:]] *)
Definition slice_from (n : nat) (s : str) : str := skipn n s.

(** [bool(s)]: a string is truthy when it is not empty. *)
Definition truthy (s : str) : bool :=
  match s with [] => false | _ :: _ => true end.

(** [s == t] *)
Fixpoint str_eqb (s t : str) : bool :=
  match s, t with
  | [], [] => true
  | c :: s', d :: t' => (c =? d) && str_eqb s' t'
  | _, _ => false
  end.

(** [s.split('\n')]: never the empty list, [''.split('\n') == ['']]. *)
Fixpoint split_nl (s : str) : list str :=
  match s with
  | [] => [[]]
  | c :: s' =>
      if c =? NL then [] :: split_nl s'
      else match split_nl s' with
           | l :: ls => (c :: l) :: ls
           | [] => [[c]]
           end
  end.

(** ['\n'.join(ls)] *)
Fixpoint join_nl (ls : list str) : str :=
  match ls with
  | [] => []
  | [l] => l
  | l :: ls' => l ++ NL :: join_nl ls'
  end.

(** [no_nl s]: no newline occurs in [s]. *)
Definition no_nl (s : str) : bool := forallb (fun c => negb (c =? NL)) s.

(** The text before the first newline, and the text from it on. *)
Fixpoint line_head (t : str) : str :=
  match t with
  | [] => []
  | x :: t' => if x =? NL then [] else x :: line_head t'
  end.

Fixpoint line_tail (t : str) : str :=
  match t with
  | [] => []
  | x :: t' => if x =? NL then t else line_tail t'
  end.

End PyStr.
Import PyStr.

(** ** The fragment of [re] the formatter uses

    The four patterns of [format_markdown_to_html] are sequences of literal
    characters, the anchors [^] and [$] under [re.MULTILINE], and one lazy
    group [(.*?)].  [.] matches every character but the newline. *)

Module Re.

Inductive item :=
| Lit (c : char)     (* a literal character; [\*] is [Lit 42] *)
| Bol                (* [^] with re.MULTILINE *)
| Eol                (* [$] with re.MULTILINE *)
| LazyGroup.         (* [(.*?)], capture group 1 *)

Definition regex := list item.

(** A position in the subject: whether it is at the beginning of a line
    (start of the text or just after a newline), and the text from there. *)
Definition cursor := (bool * str)%type.

(** Backtracking match of [p] at a cursor: the text of group 1 and the cursor
    after the match.  The lazy group first tries to stop, and only when the
    rest of the pattern fails there takes one more non-newline character. *)
Fixpoint match_here (p : regex) : bool -> str -> option (str * cursor) :=
  match p with
  | [] => fun bol t => Some ([], (bol, t))
  | Lit c :: p' => fun _ t =>
      match t with
      | x :: t' => if x =? c then match_here p' (x =? NL) t' else None
      | [] => None
      end
  | Bol :: p' => fun bol t => if bol then match_here p' bol t else None
  | Eol :: p' => fun bol t =>
      match t with
      | [] => match_here p' bol t
      | x :: _ => if x =? NL then match_here p' bol t else None
      end
  | LazyGroup :: p' =>
      fix lazy (bol : bool) (t : str) : option (str * cursor) :=
        match match_here p' bol t with
        | Some (_, cur) => Some ([], cur)
        | None =>
            match t with
            | x :: t' =>
                if x =? NL then None
                else match lazy false t' with
                     | Some (g, cur) => Some (x :: g, cur)
                     | None => None
                     end
            | [] => None
            end
        end
  end.

(** The loop of [re.sub(p, repl, text)]: at each position, from left to
    right, a match is replaced by [repl] applied to group 1 and the scan
    resumes after it; where nothing matches the character is copied.  [fuel]
    bounds the number of iterations.  None of the patterns of this program
    matches the empty string (each starts with a literal); the branch for an
    empty match copies one character so that the loop always advances. *)
Fixpoint sub_loop (fuel : nat) (p : regex) (repl : str -> str)
         (bol : bool) (t : str) : str :=
  match fuel with
  | O => t
  | S fuel' =>
      match match_here p bol t with
      | Some (g, (bol', rest)) =>
          if (length rest <? length t)%nat
          then repl g ++ sub_loop fuel' p repl bol' rest
          else repl g ++ match t with
                         | [] => []
                         | x :: t' => x :: sub_loop fuel' p repl (x =? NL) t'
                         end
      | None =>
          match t with
          | [] => []
          | x :: t' => x :: sub_loop fuel' p repl (x =? NL) t'
          end
      end
  end.

(** The loop started at any cursor, with one iteration per character and one
    more for the end of the text, which is always enough. *)
Definition sub_from (p : regex) (repl : str -> str) (bol : bool) (t : str) : str :=
  sub_loop (S (length t)) p repl bol t.

(** [re.sub(p, repl, text, flags=re.MULTILINE)]: the loop from the start of
    the text. *)
Definition sub (p : regex) (repl : str -> str) (text : str) : str :=
  sub_from p repl true text.

End Re.

(** ** [LLMHelper] *)

Module LLMHelper.

(** *** The markup the formatter emits *)

Definition B_OPEN : str := py "<b>".
Definition B_CLOSE : str := py "</b>".

Definition H3_OPEN : str :=
  py "<h3 style=" ++ DQ
  ++ py "color: #2c5aa0; margin: 16px 0 8px 0; font-size: 14pt; font-weight: bold;"
  ++ DQ ++ py ">".
Definition H3_CLOSE : str := py "</h3>".

Definition H2_OPEN : str :=
  py "<h2 style=" ++ DQ
  ++ py "color: #1e4176; margin: 18px 0 10px 0; font-size: 16pt; font-weight: bold;"
  ++ DQ ++ py ">".
Definition H2_CLOSE : str := py "</h2>".

Definition H1_OPEN : str :=
  py "<h1 style=" ++ DQ
  ++ py "color: #1a365d; margin: 20px 0 12px 0; font-size: 18pt; font-weight: bold;"
  ++ DQ ++ py ">".
Definition H1_CLOSE : str := py "</h1>".

Definition UL_OPEN : str :=
  py "<ul style=" ++ DQ ++ py "margin: 8px 0; padding-left: 20px;" ++ DQ ++ py ">".
Definition UL_CLOSE : str := py "</ul>".

Definition LI_OPEN : str :=
  py "<li style=" ++ DQ ++ py "margin: 4px 0; line-height: 1.4;" ++ DQ ++ py ">".
Definition LI_CLOSE : str := py "</li>".

Definition P_OPEN : str :=
  py "<p style=" ++ DQ ++ py "margin: 8px 0; line-height: 1.5;" ++ DQ ++ py ">".
Definition P_CLOSE : str := py "</p>".

(** *** The four substitutions *)

(** [r'\*\*(.*?)\*\*'] *)
Definition bold_re : Re.regex :=
  [Re.Lit 42; Re.Lit 42; Re.LazyGroup; Re.Lit 42; Re.Lit 42].

(** [r'^### (.*?)$'], [r'^## (.*?)$'] and [r'^# (.*?)$'] are [header_re] of
    the prefixes ["### "], ["## "] and ["# "]. *)
Definition header_re (prefix : str) : Re.regex :=
  Re.Bol :: map Re.Lit prefix ++ [Re.LazyGroup; Re.Eol].

Definition H3_PREFIX : str := py "### ".
Definition H2_PREFIX : str := py "## ".
Definition H1_PREFIX : str := py "# ".

(** A replacement template [open \1 close]. *)
Definition wrap (open close : str) (g : str) : str := open ++ g ++ close.

Definition sub_bold (text : str) : str :=
  Re.sub bold_re (wrap B_OPEN B_CLOSE) text.
Definition sub_h3 (text : str) : str :=
  Re.sub (header_re H3_PREFIX) (wrap H3_OPEN H3_CLOSE) text.
Definition sub_h2 (text : str) : str :=
  Re.sub (header_re H2_PREFIX) (wrap H2_OPEN H2_CLOSE) text.
Definition sub_h1 (text : str) : str :=
  Re.sub (header_re H1_PREFIX) (wrap H1_OPEN H1_CLOSE) text.

(** *** The list scan (the [for line in lines] loop) *)

Definition BULLET : str := py "- ".

(** The loop state: [formatted_lines] and [in_list]. *)
Definition scan_state := (list str * bool)%type.

(** One iteration of the loop body. *)
Definition scan_line (st : scan_state) (line : str) : scan_state :=
  let '(formatted_lines, in_list) := st in
  let stripped := strip line in
  if startswith stripped BULLET then
    let formatted_lines :=
      if negb in_list then formatted_lines ++ [UL_OPEN] else formatted_lines in
    (formatted_lines ++ [LI_OPEN ++ slice_from 2 stripped ++ LI_CLOSE], true)
  else
    let formatted_lines :=
      if in_list then formatted_lines ++ [UL_CLOSE] else formatted_lines in
    (if truthy stripped
     then formatted_lines ++ [P_OPEN ++ line ++ P_CLOSE]
     else formatted_lines,
     false).

Definition scan (lines : list str) (st : scan_state) : scan_state :=
  fold_left scan_line lines st.

(** The [if in_list] after the loop. *)
Definition close_list (st : scan_state) : list str :=
  let '(formatted_lines, in_list) := st in
  if in_list then formatted_lines ++ [UL_CLOSE] else formatted_lines.

(** Lines 96-117: split, scan, close, join. *)
Definition list_pass (text : str) : str :=
  join_nl (close_list (scan (split_nl text) ([], false))).

Definition format_markdown_to_html (text : str) : str :=
  let text := sub_bold text in
  let text := sub_h3 text in
  let text := sub_h2 text in
  let text := sub_h1 text in
  list_pass text.

(** *** Chat messages *)

(** The user template around [{sender}] and [{message}]. *)
Definition USER_HEAD : str :=
  NL :: indent 12 ++ py "<div style=" ++ DQ
  ++ py "margin: 16px 0; padding: 12px 16px; background: #e6fffa; border-left: 4px solid #38b2ac; border-radius: 8px;"
  ++ DQ ++ py ">"
  ++ NL :: indent 16 ++ py "<div style=" ++ DQ
  ++ py "font-weight: bold; color: #2c7a7b; margin-bottom: 6px;"
  ++ DQ ++ py ">" ++ [128100] ++ py " ".       (* U+1F464 *)
Definition USER_MID : str :=
  py ":</div>"
  ++ NL :: indent 16 ++ py "<div style=" ++ DQ
  ++ py "color: #234e52; line-height: 1.5;" ++ DQ ++ py ">".
Definition USER_TAIL : str :=
  py "</div>" ++ NL :: indent 12 ++ py "</div>" ++ NL :: indent 12.

(** The assistant template around [{formatted_msg}]. *)
Definition AI_HEAD : str :=
  NL :: indent 12 ++ py "<div style=" ++ DQ
  ++ py "margin: 16px 0; padding: 16px; background: #f0f9ff; border-left: 4px solid #3b82f6; border-radius: 8px;"
  ++ DQ ++ py ">"
  ++ NL :: indent 16 ++ py "<div style=" ++ DQ
  ++ py "font-weight: bold; color: #1e40af; margin-bottom: 8px;"
  ++ DQ ++ py ">" ++ [129302] ++ py " AI Assistant:</div>"   (* U+1F916 *)
  ++ NL :: indent 16 ++ py "<div style=" ++ DQ
  ++ py "color: #1e3a8a; line-height: 1.6;" ++ DQ ++ py ">".
Definition AI_TAIL : str :=
  py "</div>" ++ NL :: indent 12 ++ py "</div>" ++ NL :: indent 12.

Definition format_chat_message (sender message : str) (is_user : bool) : str :=
  if is_user then
    USER_HEAD ++ sender ++ USER_MID ++ message ++ USER_TAIL
  else
    let formatted_msg := format_markdown_to_html message in
    AI_HEAD ++ formatted_msg ++ AI_TAIL.

Definition YOU : str := py "You".

(** The [for sender, message in chat_history] loop, [formatted_html] being
    the accumulator. *)
Definition build_chat_history_html (chat_history : list (str * str)) : str :=
  fold_left
    (fun formatted_html '(sender, message) =>
       let is_user := str_eqb sender YOU in
       formatted_html ++ format_chat_message sender message is_user)
    chat_history [].

(** *** The configured model *)

Record t := { model : str }.

Definition MODEL : str := py "gpt-4o-mini".

Definition get_available_models : list str :=
  [py "gpt-4o-mini"; py "gpt-4o"; py "gpt-3.5-turbo"].

(** [x in xs] on a list of strings. *)
Definition str_in (x : str) (xs : list str) : bool := existsb (str_eqb x) xs.

Inductive exn := ValueError (msg : str).

(** What a method call does: it returns, or it raises. *)
Inductive outcome := Returned | Raised (e : exn).

(** [repr] of a list of strings that need no escaping, as in the f-string of
    [set_model]. *)
Fixpoint repr_items (xs : list str) : str :=
  match xs with
  | [] => []
  | [x] => py "'" ++ x ++ py "'"
  | x :: xs' => py "'" ++ x ++ py "', " ++ repr_items xs'
  end.
Definition repr_list (xs : list str) : str := py "[" ++ repr_items xs ++ py "]".

(** [set_model]: the outcome of the call and the helper after it. *)
Definition set_model (self : t) (model : str) : outcome * t :=
  let available_models := get_available_models in
  if negb (str_in model available_models) then
    (Raised (ValueError (py "Model " ++ model
                         ++ py " not in available models: "
                         ++ repr_list available_models)),
     self)
  else
    (Returned, {| model := model |}).

End LLMHelper.

(** ** The welcome markup of [styles.py] *)

Module Styles.

Definition get_welcome_message : str :=
  NL :: indent 4 ++ py "<div style=" ++ DQ
  ++ py "text-align: center; color: #718096; margin: 40px 20px;" ++ DQ ++ py ">"
  ++ NL :: indent 8 ++ py "<h3 style=" ++ DQ
  ++ py "color: #4a5568; margin-bottom: 12px;" ++ DQ ++ py ">"
  ++ [240; 376; 8216; 8249]     (* the four characters the file holds here *)
  ++ py " Welcome to your AI Data Assistant!</h3>"
  ++ NL :: indent 8 ++ py "<p style=" ++ DQ
  ++ py "margin: 8px 0; line-height: 1.6;" ++ DQ
  ++ py ">Load your data on the left, then ask questions like:</p>"
  ++ NL :: indent 8 ++ py "<ul style=" ++ DQ
  ++ py "text-align: left; max-width: 400px; margin: 16px auto;" ++ DQ ++ py ">"
  ++ NL :: indent 12 ++ py "<li style=" ++ DQ ++ py "margin: 6px 0;" ++ DQ ++ py ">"
  ++ DQ ++ py "What are the main trends in this data?" ++ DQ ++ py "</li>"
  ++ NL :: indent 12 ++ py "<li style=" ++ DQ ++ py "margin: 6px 0;" ++ DQ ++ py ">"
  ++ DQ ++ py "Convert this to JSON format" ++ DQ ++ py "</li>"
  ++ NL :: indent 12 ++ py "<li style=" ++ DQ ++ py "margin: 6px 0;" ++ DQ ++ py ">"
  ++ DQ ++ py "Show me correlations between columns" ++ DQ ++ py "</li>"
  ++ NL :: indent 12 ++ py "<li style=" ++ DQ ++ py "margin: 6px 0;" ++ DQ ++ py ">"
  ++ DQ ++ py "Summarize the key insights" ++ DQ ++ py "</li>"
  ++ NL :: indent 8 ++ py "</ul>"
  ++ NL :: indent 4 ++ py "</div>"
  ++ NL :: indent 4.

End Styles.

(** ** [DataChatBotDemo]: the transcript *)

Module DataChatBotDemo.

(** The fields of the widget the transcript operations read or write;
    [chat_area] is the markup last given to [chat_area.setHtml] and [status]
    the text last given to [status.setText]. *)
Record t := {
  data_text : str;
  chat_history : list (str * str);
  llm_helper : LLMHelper.t;
  chat_area : str;
  status : str
}.

(** The widget after [__init__]. *)
Definition init : t := {|
  data_text := [];
  chat_history := [];
  llm_helper := {| LLMHelper.model := LLMHelper.MODEL |};
  chat_area := Styles.get_welcome_message;
  status := py "Ready " ++ [226; 8364; 162]
            ++ py " Load your data and start asking questions"
|}.

Definition _add_to_chat (self : t) (sender message : str) : t :=
  let message := strip message in
  if negb (truthy message) then self
  else
    let chat_history := chat_history self ++ [(sender, message)] in
    let formatted_html := LLMHelper.build_chat_history_html chat_history in
    {| data_text := data_text self;
       chat_history := chat_history;
       llm_helper := llm_helper self;
       chat_area := formatted_html;
       status := status self |}.

Definition clear_chat_history (self : t) : t :=
  {| data_text := data_text self;
     chat_history := [];
     llm_helper := llm_helper self;
     chat_area := Styles.get_welcome_message;
     status := py "Chat history cleared" |}.

(** [self.chat_history.copy()]: the value of the list. *)
Definition get_chat_history (self : t) : list (str * str) :=
  chat_history self.

End DataChatBotDemo.

(** ** Vocabulary of the statements about the formatter

    What the properties below say about a text: where [**] occurs, which
    lines are headings or bullets, what one line becomes, and which output
    lines are list markers. *)

Module Markdown.
Import LLMHelper.

Definition DSTAR : str := py "**".

(** [**] occurs somewhere in [t]. *)
Fixpoint has_dstar (t : str) : bool :=
  match t with
  | [] => false
  | _ :: t' => startswith t DSTAR || has_dstar t'
  end.

(** The number of positions of [t] at which [**] occurs. *)
Fixpoint occ_dstar (t : str) : nat :=
  match t with
  | [] => O
  | _ :: t' => ((if startswith t DSTAR then 1 else 0) + occ_dstar t')%nat
  end.

(** [**] occurs in [t] before the first newline. *)
Fixpoint closes (t : str) : bool :=
  match t with
  | [] => false
  | x :: t' => startswith t DSTAR || (negb (x =? NL) && closes t')
  end.

(** [t] holds a [**] pair: a [**] followed, on the same line, by another. *)
Fixpoint has_bold_span (t : str) : bool :=
  match t with
  | [] => false
  | _ :: t' => (startswith t DSTAR && closes (skipn 2 t)) || has_bold_span t'
  end.

(** The emphasis pattern after its opening [**]. *)
Definition bold_tail : Re.regex := [Re.LazyGroup; Re.Lit 42; Re.Lit 42].

(** A line starts with one of the heading prefixes. *)
Definition is_heading (l : str) : bool :=
  startswith l H3_PREFIX || startswith l H2_PREFIX || startswith l H1_PREFIX.

(** The stripped form of a line starts with the bullet prefix. *)
Definition is_bullet (l : str) : bool := startswith (strip l) BULLET.

(** A line is empty or holds white space only. *)
Definition is_blank (l : str) : bool := negb (truthy (strip l)).

(** What a heading substitution makes of one line. *)
Definition hline (prefix open close : str) (l : str) : str :=
  if startswith l prefix then open ++ skipn (length prefix) l ++ close else l.

Definition h3_line : str -> str := hline H3_PREFIX H3_OPEN H3_CLOSE.
Definition h2_line : str -> str := hline H2_PREFIX H2_OPEN H2_CLOSE.
Definition h1_line : str -> str := hline H1_PREFIX H1_OPEN H1_CLOSE.

(** The three heading substitutions on one line, in the order of the code. *)
Definition heading_line (l : str) : str := h1_line (h2_line (h3_line l)).

(** The lines the list scan goes through. *)
Definition scanned_lines (text : str) : list str :=
  map heading_line (split_nl (sub_bold text)).

(** The markup of a heading line: it starts with [<] and ends with [>]. *)
Inductive heading_markup : str -> Prop :=
| markup_h3 y : heading_markup (H3_OPEN ++ y ++ H3_CLOSE)
| markup_h2 y : heading_markup (H2_OPEN ++ y ++ H2_CLOSE)
| markup_h1 y : heading_markup (H1_OPEN ++ y ++ H1_CLOSE).

(** The blocks of the output. *)
Definition paragraph (l : str) : str := P_OPEN ++ l ++ P_CLOSE.
Definition list_item (l : str) : str :=
  LI_OPEN ++ slice_from 2 (strip l) ++ LI_CLOSE.
Definition heading3 (x : str) : str := H3_OPEN ++ x ++ H3_CLOSE.
Definition emphasis (x : str) : str := B_OPEN ++ x ++ B_CLOSE.

(** The list markers among the lines of an output. *)
Inductive marker := ListOpen | ListClose.

Fixpoint markers (ls : list str) : list marker :=
  match ls with
  | [] => []
  | l :: ls' =>
      if str_eqb l UL_OPEN then ListOpen :: markers ls'
      else if str_eqb l UL_CLOSE then ListClose :: markers ls'
      else markers ls'
  end.

Definition count_open (ms : list marker) : nat :=
  length (filter (fun m => match m with ListOpen => true | _ => false end) ms).
Definition count_close (ms : list marker) : nat :=
  length (filter (fun m => match m with ListClose => true | _ => false end) ms).

(** Every close has an open before it that no earlier close has taken, and
    at the end every open has been closed; [depth] is the number of lists
    open so far. *)
Fixpoint well_nested (depth : nat) (ms : list marker) : bool :=
  match ms with
  | [] => Nat.eqb depth 0
  | ListOpen :: ms' => well_nested (S depth) ms'
  | ListClose :: ms' =>
      match depth with
      | O => false
      | S d => well_nested d ms'
      end
  end.

(** Reading markers from depth [d]: the depth reached, if no close comes
    before its open. *)
Fixpoint depth_after (d : nat) (ms : list marker) : option nat :=
  match ms with
  | [] => Some d
  | ListOpen :: ms' => depth_after (S d) ms'
  | ListClose :: ms' =>
      match d with
      | O => None
      | S d' => depth_after d' ms'
      end
  end.

(** What the scan keeps true of [formatted_lines] and [in_list]. *)
Definition scan_inv (st : scan_state) : Prop :=
  let d := if snd st then 1%nat else 0%nat in
  forallb no_nl (fst st) = true
  /\ depth_after 0 (markers (fst st)) = Some d
  /\ count_open (markers (fst st)) = (count_close (markers (fst st)) + d)%nat.

End Markdown.
Import Markdown.

(** ** Vocabulary of the statements about the transcript *)

Module Session.
Import LLMHelper.

(** What the rendering makes of one transcript entry. *)
Definition render_entry (e : str * str) : str :=
  let '(sender, message) := e in
  if str_eqb sender YOU
  then USER_HEAD ++ sender ++ USER_MID ++ message ++ USER_TAIL
  else AI_HEAD ++ format_markdown_to_html message ++ AI_TAIL.

(** The operations on the transcript, and a session of them. *)
Inductive op := Append (sender message : str) | Clear.

Definition step (self : DataChatBotDemo.t) (o : op) : DataChatBotDemo.t :=
  match o with
  | Append sender message => DataChatBotDemo._add_to_chat self sender message
  | Clear => DataChatBotDemo.clear_chat_history self
  end.

Definition run (ops : list op) (self : DataChatBotDemo.t) : DataChatBotDemo.t :=
  fold_left step ops self.

(** Every message of the history is non-empty and its own strip. *)
Definition history_inv (h : list (str * str)) : Prop :=
  Forall (fun e => snd e <> [] /\ strip (snd e) = snd e) h.

End Session.
Import Session.

(** ** The service boundary of [LLMHelper]: the key and [ask_llm] *)

Module Service.
Import LLMHelper.

(** The base exception [ask_llm] raises; [str(e)] is its message. *)
Inductive py_exception := Exception (msg : str).

Definition str_of (e : py_exception) : str :=
  match e with Exception msg => msg end.

Section Key.

(** [os.getenv("OPENAI_API_KEY")] at import time: [None] or the value. *)
Variable OPENAI_API_KEY : option str.

(** [bool(OPENAI_API_KEY)] *)
Definition validate_api_key : bool :=
  match OPENAI_API_KEY with
  | Some key => truthy key
  | None => false
  end.

Definition KEY_NOT_SET : str :=
  py "OPENAI_API_KEY environment variable is not set. "
  ++ py "Please set it before using the application.".

Definition _setup_api : outcome :=
  if negb (match OPENAI_API_KEY with Some key => truthy key | None => false end)
  then Raised (ValueError KEY_NOT_SET)
  else Returned.

(** [LLMHelper(model)]: the new helper, or the exception of [_setup_api]. *)
Definition __init__ (model : str) : LLMHelper.t + exn :=
  let self := {| LLMHelper.model := model |} in
  match _setup_api with
  | Raised e => inr e
  | Returned => inl self
  end.

End Key.

Definition PROMPT_HEAD : str :=
  py "You are an expert data analyst assistant. The user has provided data below "
  ++ py "and wants you to analyze it. Please provide clear, well-formatted responses using "
  ++ py "markdown formatting (headers with ###, bullet points with -, **bold** text) "
  ++ py "to make your analysis easy to read and understand." ++ [NL; NL]
  ++ py "Data:" ++ [NL].
Definition PROMPT_MID : str := [NL; NL] ++ py "Question: ".
Definition PROMPT_TAIL : str :=
  [NL; NL] ++ py "Please provide a comprehensive analysis with proper formatting.".

Definition prompt (data question : str) : str :=
  PROMPT_HEAD ++ data ++ PROMPT_MID ++ question ++ PROMPT_TAIL.

Definition SYSTEM_CONTENT : str :=
  py "You are a helpful data analyst. Always format your responses with "
  ++ py "markdown for better readability. Use headers (###), bullet points (-), "
  ++ py "and **bold** text appropriately.".

(** The [messages] list: one (role, content) pair for each dict. *)
Definition messages (data question : str) : list (str * str) :=
  [(py "system", SYSTEM_CONTENT); (py "user", prompt data question)].

Definition API_ERROR : str := py "Error communicating with OpenAI API: ".

Section Api.

(** The body of the [try] up to the [.strip()]: the call
    [openai.chat.completions.create] with the model, the messages and the
    fixed [temperature] and [max_tokens], then
    [response.choices[0].message.content].  It gives the content, or raises
    an exception [e], of which [str(e)] is kept. *)
Variable create : str -> list (str * str) -> str + str.

Definition ask_llm (self : LLMHelper.t) (data question : str)
  : str + py_exception :=
  match create (model self) (messages data question) with
  | inl content => inl (strip content)
  | inr detail => inr (Exception (API_ERROR ++ detail))
  end.

End Api.

End Service.

(** ** [DataChatBotDemo._on_send] *)

Module Window.
Import LLMHelper.

(** The widget with the two inputs [_on_send] reads: [chat_input] is what
    [chat_input.text()] returns and [data_edit] what
    [data_edit.toPlainText()] returns.  The override cursor is left out. *)
Record t := {
  widget : DataChatBotDemo.t;
  chat_input : str;
  data_edit : str
}.

Definition set_data_text_field (self : t) (data_text : str) : t :=
  {| widget :=
       {| DataChatBotDemo.data_text := data_text;
          DataChatBotDemo.chat_history := DataChatBotDemo.chat_history (widget self);
          DataChatBotDemo.llm_helper := DataChatBotDemo.llm_helper (widget self);
          DataChatBotDemo.chat_area := DataChatBotDemo.chat_area (widget self);
          DataChatBotDemo.status := DataChatBotDemo.status (widget self) |};
     chat_input := chat_input self;
     data_edit := data_edit self |}.

(** [self.status.setText(text)] *)
Definition status_setText (self : t) (text : str) : t :=
  {| widget :=
       {| DataChatBotDemo.data_text := DataChatBotDemo.data_text (widget self);
          DataChatBotDemo.chat_history := DataChatBotDemo.chat_history (widget self);
          DataChatBotDemo.llm_helper := DataChatBotDemo.llm_helper (widget self);
          DataChatBotDemo.chat_area := DataChatBotDemo.chat_area (widget self);
          DataChatBotDemo.status := text |};
     chat_input := chat_input self;
     data_edit := data_edit self |}.

(** [self._add_to_chat(sender, message)] *)
Definition _add_to_chat (self : t) (sender message : str) : t :=
  {| widget := DataChatBotDemo._add_to_chat (widget self) sender message;
     chat_input := chat_input self;
     data_edit := data_edit self |}.

(** [self.chat_input.clear()] *)
Definition chat_input_clear (self : t) : t :=
  {| widget := widget self; chat_input := []; data_edit := data_edit self |}.

Definition WARN : str := [226; 353; 160; 239; 184].   (* as the file holds it *)
Definition NO_DATA : str := WARN ++ py " Please paste or load your data first".
Definition NO_QUESTION : str := WARN ++ py " Please type your question".
Definition ANALYZING : str :=
  [240; 376; 164; 8221] ++ py " AI is analyzing your data...".
Definition RECEIVED : str := [226; 339; 8230] ++ py " Response received".
Definition ERROR_STATUS : str := [226; 338] ++ py " Error: ".
Definition APOLOGY : str := py "I apologize, but I encountered an error: ".

Section Send.

Variable create : str -> list (str * str) -> str + str.

(** [QApplication.processEvents()]: whatever the pending events do to the
    widget. *)
Variable processEvents : t -> t.

Definition _on_send (self : t) : t :=
  let user_question := strip (chat_input self) in
  let self := set_data_text_field self (strip (data_edit self)) in
  if negb (truthy (DataChatBotDemo.data_text (widget self))) then
    status_setText self NO_DATA
  else if negb (truthy user_question) then
    status_setText self NO_QUESTION
  else
    let self := _add_to_chat self (py "You") user_question in
    let self := chat_input_clear self in
    let self := status_setText self ANALYZING in
    let self := processEvents self in
    match Service.ask_llm create
            (DataChatBotDemo.llm_helper (widget self))
            (DataChatBotDemo.data_text (widget self)) user_question with
    | inl ai_response =>
        let self := _add_to_chat self (py "AI") ai_response in
        status_setText self RECEIVED
    | inr ex =>
        let error_msg := APOLOGY ++ Service.str_of ex in
        let self := _add_to_chat self (py "AI") error_msg in
        status_setText self (ERROR_STATUS ++ Service.str_of ex)
    end.

End Send.

End Window.

(** ** Vocabulary of the further statements *)

Module Blocks.
Import LLMHelper.

(** What the formatter makes of one line before the list scan. *)
Definition prepared_line (l : str) : str := heading_line (sub_bold l).

(** The block the scan makes of a line that is not blank. *)
Definition block (l : str) : str :=
  if is_bullet l then list_item l else paragraph l.

Definition is_marker (l : str) : bool := str_eqb l UL_OPEN || str_eqb l UL_CLOSE.

(** The lines that are not list markers. *)
Definition plain_lines (fl : list str) : list str :=
  filter (fun l => negb (is_marker l)) fl.

(** The lines of the output, before they are joined. *)
Definition format_lines (text : str) : list str :=
  close_list (scan (scanned_lines text) ([], false)).

(** [n] lists, one closed before the next is opened. *)
Fixpoint lists_in_a_row (n : nat) : list marker :=
  match n with
  | O => []
  | S n' => ListOpen :: ListClose :: lists_in_a_row n'
  end.

(** Two outputs, one after the other: joined by a newline unless one of
    them is empty. *)
Definition stack (a b : str) : str :=
  match a, b with
  | [], _ => b
  | _, [] => a
  | _, _ => a ++ NL :: b
  end.

(** The display that goes with a history: the welcome markup for the empty
    one, its rendering otherwise. *)
Definition display_of (h : list (str * str)) : str :=
  match h with
  | [] => Styles.get_welcome_message
  | _ :: _ => build_chat_history_html h
  end.

(** The entries a batch of appends adds: those whose message does not strip
    to the empty string, with the message stripped. *)
Definition kept (appends : list (str * str)) : list (str * str) :=
  map (fun e => (fst e, strip (snd e)))
      (filter (fun e => truthy (strip (snd e))) appends).

(** A series of [set_model] calls, raising or not, on one helper. *)
Definition set_models (names : list str) (self : LLMHelper.t) : LLMHelper.t :=
  fold_left (fun h name => snd (set_model h name)) names self.

Definition is_available (name : str) : bool := str_in name get_available_models.

(** A batch of appends on one widget. *)
Definition add_all (appends : list (str * str)) (self : DataChatBotDemo.t)
  : DataChatBotDemo.t :=
  fold_left (fun s e => DataChatBotDemo._add_to_chat s (fst e) (snd e))
            appends self.

(** The window at the moment [_on_send] hands over to the pending events:
    the data stored, the question appended, the input cleared and the status
    set. *)
Definition asked (self : Window.t) : Window.t :=
  Window.status_setText
    (Window.chat_input_clear
       (Window._add_to_chat
          (Window.set_data_text_field self (strip (Window.data_edit self)))
          (py "You") (strip (Window.chat_input self))))
    Window.ANALYZING.

(** The transcript of a window is well formed: its messages are stripped
    and not empty, and the chat area shows it. *)
Definition window_ok (w : Window.t) : Prop :=
  history_inv (DataChatBotDemo.chat_history (Window.widget w))
  /\ DataChatBotDemo.chat_area (Window.widget w)
     = display_of (DataChatBotDemo.chat_history (Window.widget w)).

End Blocks.
Import Blocks.

(** * Properties *)

(** ** Facts about the string operations *)

Module PyStrFacts.

Lemma no_nl_app s t : no_nl (s ++ t) = no_nl s && no_nl t.
Proof. apply forallb_app. Qed.

Lemma no_nl_cons c s : no_nl (c :: s) = negb (c =? NL) && no_nl s.
Proof. reflexivity. Qed.

Lemma no_nl_rev s : no_nl (rev s) = no_nl s.
Proof.
  induction s as [|c s IH]; [reflexivity|].
  simpl rev. rewrite no_nl_app, IH, no_nl_cons. simpl.
  rewrite andb_true_r. apply andb_comm.
Qed.

Lemma no_nl_skipn n s : no_nl s = true -> no_nl (skipn n s) = true.
Proof.
  revert s. induction n as [|n IH]; intros [|c s] H; simpl; auto.
  apply IH. rewrite no_nl_cons in H. apply andb_prop in H. tauto.
Qed.

Lemma no_nl_lstrip s : no_nl s = true -> no_nl (lstrip s) = true.
Proof.
  induction s as [|c s IH]; intros H; simpl; auto.
  destruct (isspace c); auto.
  apply IH. rewrite no_nl_cons in H. apply andb_prop in H. tauto.
Qed.

Lemma no_nl_strip s : no_nl s = true -> no_nl (strip s) = true.
Proof.
  intros H. unfold strip, rstrip.
  rewrite no_nl_rev. apply no_nl_lstrip. rewrite no_nl_rev.
  now apply no_nl_lstrip.
Qed.

(** *** [strip] *)

Lemma lstrip_suffix s : exists w, s = w ++ lstrip s.
Proof.
  induction s as [|c s [w IH]]; simpl.
  - now exists [].
  - destruct (isspace c).
    + exists (c :: w). simpl. now f_equal.
    + now exists [].
Qed.

Lemma rstrip_prefix s : exists w, s = rstrip s ++ w.
Proof.
  unfold rstrip. destruct (lstrip_suffix (rev s)) as [w H].
  exists (rev w). rewrite <- rev_app_distr, <- H. symmetry. apply rev_involutive.
Qed.

Lemma lstrip_head s :
  match lstrip s with [] => True | c :: _ => isspace c = false end.
Proof.
  induction s as [|c s IH]; simpl; auto.
  destruct (isspace c) eqn:E; auto.
Qed.

Lemma lstrip_fixed s :
  match s with [] => True | c :: _ => isspace c = false end -> lstrip s = s.
Proof. destruct s as [|c s]; simpl; auto. now intros ->. Qed.

Lemma lstrip_idem s : lstrip (lstrip s) = lstrip s.
Proof. apply lstrip_fixed, lstrip_head. Qed.

Lemma rstrip_idem s : rstrip (rstrip s) = rstrip s.
Proof. unfold rstrip. now rewrite rev_involutive, lstrip_idem. Qed.

Lemma lstrip_rstrip_lstrip s : lstrip (rstrip (lstrip s)) = rstrip (lstrip s).
Proof.
  apply lstrip_fixed.
  destruct (rstrip_prefix (lstrip s)) as [w H].
  destruct (rstrip (lstrip s)) as [|c r] eqn:E; auto.
  pose proof (lstrip_head s) as Hh. rewrite H in Hh. exact Hh.
Qed.

(** [strip] is idempotent: a stripped string is its own strip. *)
Lemma strip_idem s : strip (strip s) = strip s.
Proof.
  unfold strip. rewrite lstrip_rstrip_lstrip. apply rstrip_idem.
Qed.

Lemma truthy_true s : truthy s = true <-> s <> [].
Proof. destruct s; simpl; split; congruence. Qed.

Lemma str_eqb_eq s t : str_eqb s t = true <-> s = t.
Proof.
  revert t. induction s as [|c s IH]; intros [|d t]; simpl; split;
    try congruence; try reflexivity.
  - intros H. apply andb_prop in H as [H1 H2].
    apply N.eqb_eq in H1. apply IH in H2. congruence.
  - intros [= -> ->]. rewrite N.eqb_refl. now apply IH.
Qed.

(** *** [split] and [join] *)

Lemma split_nl_not_nil s : split_nl s <> [].
Proof.
  destruct s as [|c s]; simpl; [discriminate|].
  destruct (c =? NL); [discriminate|]. destruct (split_nl s); discriminate.
Qed.

Lemma split_nl_no_nl s : forallb no_nl (split_nl s) = true.
Proof.
  induction s as [|c s IH]; [reflexivity|]. simpl.
  destruct (c =? NL) eqn:E; simpl; [exact IH|].
  destruct (split_nl s) as [|l ls]; simpl in *; rewrite ?E; simpl; auto.
Qed.

(** A text is its first line, and after a newline the remaining text. *)
Lemma split_nl_line s :
  split_nl s = line_head s ::
               match line_tail s with [] => [] | _ :: s' => split_nl s' end.
Proof.
  induction s as [|c s IH]; [reflexivity|]. simpl.
  destruct (c =? NL) eqn:E; [reflexivity|]. now rewrite IH.
Qed.

Lemma line_head_tail s : s = line_head s ++ line_tail s.
Proof.
  induction s as [|c s IH]; [reflexivity|]. simpl.
  destruct (c =? NL); [reflexivity|]. simpl. now f_equal.
Qed.

Lemma line_tail_head s :
  match line_tail s with [] => True | c :: _ => c = NL end.
Proof.
  induction s as [|c s IH]; simpl; auto.
  destruct (c =? NL) eqn:E; auto. now apply N.eqb_eq in E.
Qed.

Lemma line_tail_length s : (length (line_tail s) <= length s)%nat.
Proof.
  induction s as [|c s IH]; simpl; auto.
  destruct (c =? NL); simpl; lia.
Qed.

Lemma line_head_no_nl s : no_nl (line_head s) = true.
Proof.
  induction s as [|c s IH]; [reflexivity|]. simpl.
  destruct (c =? NL) eqn:E; [reflexivity|]. simpl. now rewrite E.
Qed.

Lemma join_nl_cons l ls :
  ls <> [] -> join_nl (l :: ls) = l ++ NL :: join_nl ls.
Proof. destruct ls; [congruence | reflexivity]. Qed.

Lemma split_nl_app_no_nl l s :
  no_nl l = true ->
  split_nl (l ++ s) =
  match split_nl s with
  | l' :: ls => (l ++ l') :: ls
  | [] => [l]
  end.
Proof.
  induction l as [|c l IH]; intros H; simpl.
  - pose proof (split_nl_not_nil s).
    destruct (split_nl s); [congruence | reflexivity].
  - rewrite no_nl_cons in H. apply andb_prop in H as [Hc Hl].
    apply negb_true_iff in Hc. rewrite Hc, (IH Hl).
    destruct (split_nl s); reflexivity.
Qed.

Lemma split_join_nl ls :
  ls <> [] -> forallb no_nl ls = true -> split_nl (join_nl ls) = ls.
Proof.
  induction ls as [|l ls IH]; [congruence|]. intros _ H.
  simpl in H. apply andb_prop in H as [Hl Hls].
  destruct ls as [|l' ls].
  - simpl. rewrite <- (app_nil_r l) at 1.
    rewrite (split_nl_app_no_nl _ _ Hl). simpl. now rewrite app_nil_r.
  - rewrite join_nl_cons by discriminate.
    rewrite (split_nl_app_no_nl _ _ Hl).
    change (split_nl (NL :: join_nl (l' :: ls)))
      with ([] :: split_nl (join_nl (l' :: ls))).
    cbv beta iota. rewrite app_nil_r. f_equal.
    apply IH; [discriminate | exact Hls].
Qed.

Lemma join_split_nl s : join_nl (split_nl s) = s.
Proof.
  induction s as [|c s IH]; [reflexivity|]. simpl.
  destruct (c =? NL) eqn:E.
  - apply N.eqb_eq in E. subst c.
    rewrite join_nl_cons by apply split_nl_not_nil. simpl. now rewrite IH.
  - pose proof (split_nl_not_nil s) as Hn.
    destruct (split_nl s) as [|l ls]; [congruence|].
    destruct ls as [|l' ls]; simpl in *; now rewrite <- IH.
Qed.

Lemma startswith_app p r : startswith (p ++ r) p = true.
Proof.
  induction p as [|c p IH]; [reflexivity|].
  cbn [startswith app]. now rewrite N.eqb_refl.
Qed.

Lemma startswith_split s p :
  startswith s p = true -> s = p ++ skipn (length p) s.
Proof.
  revert s. induction p as [|c p IH]; intros s H; simpl in *; auto.
  destruct s as [|x s]; [discriminate|]. apply andb_prop in H as [H1 H2].
  apply N.eqb_eq in H1. subst. f_equal. now apply IH.
Qed.

(** A prefix without newline is looked for in the first line only. *)
Lemma startswith_line_head s p :
  no_nl p = true -> startswith (line_head s) p = startswith s p.
Proof.
  revert s. induction p as [|c p IH]; intros s H; [reflexivity|].
  rewrite no_nl_cons in H. apply andb_prop in H as [Hc Hp].
  apply negb_true_iff in Hc.
  destruct s as [|x s]; [reflexivity|]. simpl.
  destruct (x =? NL) eqn:E; simpl.
  - apply N.eqb_eq in E. subst x.
    destruct (NL =? c) eqn:E'; [|reflexivity].
    apply N.eqb_eq in E'. subst c. discriminate.
  - now rewrite IH.
Qed.

End PyStrFacts.
Import PyStrFacts.

(** ** Facts about the matcher and the substitution loop *)

Module ReFacts.
Import Re.

(** The lazy group, one step at a time. *)
Lemma lazy_unfold p' bol t :
  match_here (LazyGroup :: p') bol t =
  match match_here p' bol t with
  | Some (_, cur) => Some ([], cur)
  | None =>
      match t with
      | x :: t' =>
          if x =? NL then None
          else match match_here (LazyGroup :: p') false t' with
               | Some (g, cur) => Some (x :: g, cur)
               | None => None
               end
      | [] => None
      end
  end.
Proof. destruct t; reflexivity. Qed.

(** Fuel beyond the length of the text changes nothing. *)
Lemma sub_loop_fuel p repl : forall f1 f2 bol t,
  (length t < f1)%nat -> (length t < f2)%nat ->
  sub_loop f1 p repl bol t = sub_loop f2 p repl bol t.
Proof.
  induction f1 as [|f1 IH]; intros [|f2] bol t H1 H2; try lia.
  cbn [sub_loop].
  destruct (match_here p bol t) as [[g [bol' rest]]|].
  - destruct (length rest <? length t)%nat eqn:E.
    + apply Nat.ltb_lt in E. f_equal. apply IH; lia.
    + f_equal. destruct t as [|x t']; [reflexivity|].
      f_equal. apply IH; simpl in *; lia.
  - destruct t as [|x t']; [reflexivity|].
    f_equal. apply IH; simpl in *; lia.
Qed.

(** The loop never runs out of fuel: it satisfies the equation of the
    unbounded loop. *)
Lemma sub_from_eq p repl bol t :
  sub_from p repl bol t =
  match match_here p bol t with
  | Some (g, (bol', rest)) =>
      if (length rest <? length t)%nat
      then repl g ++ sub_from p repl bol' rest
      else repl g ++ match t with
                     | [] => []
                     | x :: t' => x :: sub_from p repl (x =? NL) t'
                     end
  | None =>
      match t with
      | [] => []
      | x :: t' => x :: sub_from p repl (x =? NL) t'
      end
  end.
Proof.
  unfold sub_from at 1. cbn [sub_loop].
  destruct (match_here p bol t) as [[g [bol' rest]]|].
  - destruct (length rest <? length t)%nat eqn:E.
    + apply Nat.ltb_lt in E. f_equal. apply sub_loop_fuel; lia.
    + destruct t; reflexivity.
  - destruct t; reflexivity.
Qed.

Lemma sub_from_none p repl bol x t :
  match_here p bol (x :: t) = None ->
  sub_from p repl bol (x :: t) = x :: sub_from p repl (x =? NL) t.
Proof. intros H. now rewrite sub_from_eq, H. Qed.

Lemma sub_from_nil_none p repl bol :
  match_here p bol [] = None -> sub_from p repl bol [] = [].
Proof. intros H. now rewrite sub_from_eq, H. Qed.

Lemma sub_from_some p repl bol t g bol' rest :
  match_here p bol t = Some (g, (bol', rest)) ->
  (length rest < length t)%nat ->
  sub_from p repl bol t = repl g ++ sub_from p repl bol' rest.
Proof.
  intros H L. rewrite sub_from_eq, H.
  apply Nat.ltb_lt in L. now rewrite L.
Qed.

(** A run of literals matches exactly when the text starts with them. *)
Lemma match_lits pre p' : forall bol t,
  no_nl pre = true ->
  match_here (map Lit pre ++ p') bol t =
  if startswith t pre
  then match_here p' (match pre with [] => bol | _ :: _ => false end)
                  (skipn (length pre) t)
  else None.
Proof.
  induction pre as [|c pre IH]; intros bol t H; [reflexivity|].
  rewrite no_nl_cons in H. apply andb_prop in H as [Hc Hp].
  apply negb_true_iff in Hc.
  cbn [map app match_here startswith].
  destruct t as [|x t]; [reflexivity|].
  destruct (x =? c) eqn:E; [|reflexivity].
  apply N.eqb_eq in E. subst x. rewrite Hc.
  cbn [andb length skipn]. rewrite (IH false t Hp).
  destruct pre; reflexivity.
Qed.

End ReFacts.
Import ReFacts.

(** ** The emphasis substitution *)

Module BoldFacts.
Import Re LLMHelper.

Lemma bold_here bol t :
  match_here bold_re bol t =
  if startswith t DSTAR then match_here bold_tail false (skipn 2 t) else None.
Proof. exact (match_lits DSTAR bold_tail bol t eq_refl). Qed.

Lemma close_here bol t :
  match_here [Lit 42; Lit 42] bol t =
  if startswith t DSTAR then Some ([], (false, skipn 2 t)) else None.
Proof. exact (match_lits DSTAR [] bol t eq_refl). Qed.

(** Whether [**] is at the head of [x :: s] depends on [x] and on the head
    of [s] only. *)
Lemma startswith_dstar_head x s r :
  startswith ((x :: s) ++ 42 :: r) DSTAR = startswith ((x :: s) ++ [42]) DSTAR.
Proof. destruct s; reflexivity. Qed.

(** A match of the tail splits the text at a closing [**], with no newline in
    the group. *)
Lemma bold_tail_sound : forall r bol g cur,
  match_here bold_tail bol r = Some (g, cur) ->
  exists rest, cur = (false, rest) /\ r = g ++ DSTAR ++ rest /\ no_nl g = true.
Proof.
  induction r as [|x r IH]; intros bol g cur H; unfold bold_tail in H;
    rewrite lazy_unfold, close_here in H.
  - discriminate.
  - destruct (startswith (x :: r) DSTAR) eqn:E.
    + injection H as <- <-. exists (skipn 2 (x :: r)). repeat split.
      now apply startswith_split in E.
    + destruct (x =? NL) eqn:Ex; [discriminate|].
      destruct (match_here [LazyGroup; Lit 42; Lit 42] false r)
        as [[g' cur']|] eqn:M; [|discriminate].
      injection H as <- <-.
      destruct (IH _ _ _ M) as (rest & -> & -> & Hn).
      exists rest. repeat split. simpl. now rewrite Ex.
Qed.

(** The lazy group stops at the first [**] of the line. *)
Lemma bold_tail_complete : forall X rest bol,
  no_nl X = true -> has_dstar (X ++ [42]) = false ->
  match_here bold_tail bol (X ++ DSTAR ++ rest) = Some (X, (false, rest)).
Proof.
  induction X as [|x X IH]; intros rest bol Hn Hd; unfold bold_tail;
    rewrite lazy_unfold, close_here.
  - reflexivity.
  - change ((x :: X) ++ DSTAR ++ rest) with ((x :: X) ++ 42 :: 42 :: rest).
    rewrite startswith_dstar_head.
    cbn [has_dstar app] in Hd. apply orb_false_iff in Hd as [Hd1 Hd2].
    cbn [app]. rewrite Hd1.
    rewrite no_nl_cons in Hn. apply andb_prop in Hn as [Hx HX].
    apply negb_true_iff in Hx. rewrite Hx.
    change (X ++ 42 :: 42 :: rest) with (X ++ DSTAR ++ rest).
    fold bold_tail. now rewrite (IH rest false HX Hd2).
Qed.

(** Without a closing [**] on the line the tail does not match. *)
Lemma bold_tail_none : forall r bol,
  closes r = false -> match_here bold_tail bol r = None.
Proof.
  induction r as [|x r IH]; intros bol H; unfold bold_tail;
    rewrite lazy_unfold, close_here.
  - reflexivity.
  - cbn [closes] in H. apply orb_false_iff in H as [H1 H2]. rewrite H1.
    destruct (x =? NL); [reflexivity|]. simpl in H2.
    fold bold_tail. now rewrite (IH false H2).
Qed.

Lemma closes_split : forall r,
  closes r = true ->
  exists X b, r = X ++ DSTAR ++ b /\ no_nl X = true.
Proof.
  induction r as [|x r IH]; intros H; [discriminate|].
  cbn [closes] in H. destruct (startswith (x :: r) DSTAR) eqn:E.
  - exists [], (skipn 2 (x :: r)). split; [|reflexivity].
    now apply startswith_split in E.
  - cbn [orb] in H. apply andb_prop in H as [Hx Hr].
    destruct (IH Hr) as (X & b & -> & Hn).
    exists (x :: X), b. split; [reflexivity|].
    now rewrite no_nl_cons, Hx, Hn.
Qed.

Lemma closes_app : forall X b, no_nl X = true -> closes (X ++ DSTAR ++ b) = true.
Proof.
  induction X as [|x X IH]; intros b H; [reflexivity|].
  rewrite no_nl_cons in H. apply andb_prop in H as [Hx HX].
  cbn [app closes]. now rewrite Hx, (IH b HX), orb_true_r.
Qed.

(** [has_bold_span] says that the text holds [**X**] with [X] on one line. *)
Lemma has_bold_span_iff t :
  has_bold_span t = true <->
  exists a X b, t = a ++ DSTAR ++ X ++ DSTAR ++ b /\ no_nl X = true.
Proof.
  split.
  - induction t as [|x t IH]; intros H; [discriminate|].
    cbn [has_bold_span] in H. apply orb_prop in H as [H|H].
    + apply andb_prop in H as [H1 H2].
      apply closes_split in H2 as (X & b & E & Hn).
      apply startswith_split in H1. change (length DSTAR) with 2%nat in H1.
      rewrite E in H1. now exists [], X, b.
    + destruct (IH H) as (a & X & b & -> & Hn). now exists (x :: a), X, b.
  - intros (a & X & b & -> & Hn). induction a as [|x a IH].
    + cbn [app]. change (DSTAR ++ X ++ DSTAR ++ b)
        with (42 :: 42 :: X ++ DSTAR ++ b).
      cbn [has_bold_span]. change (startswith (42 :: 42 :: X ++ DSTAR ++ b) DSTAR)
        with true.
      change (skipn 2 (42 :: 42 :: X ++ DSTAR ++ b)) with (X ++ DSTAR ++ b).
      now rewrite (closes_app _ _ Hn).
    + cbn [app has_bold_span]. rewrite IH. apply orb_true_r.
Qed.

(** The pattern has no anchor: the line flag of the cursor is irrelevant. *)
Lemma bold_loop_bol repl : forall fuel b1 b2 t,
  sub_loop fuel bold_re repl b1 t = sub_loop fuel bold_re repl b2 t.
Proof.
  induction fuel as [|fuel IH]; intros b1 b2 t; [reflexivity|].
  cbn [sub_loop]. rewrite (bold_here b1), (bold_here b2).
  destruct (startswith t DSTAR);
    [destruct (match_here bold_tail false (skipn 2 t)) as [[g [b rest]]|]|];
    try reflexivity.
  all: destruct t as [|x t]; try reflexivity; f_equal; apply IH.
Qed.

Lemma bold_from_bol repl b t :
  sub_from bold_re repl b t = sub bold_re repl t.
Proof. apply bold_loop_bol. Qed.

(** Text before the first [**] is copied. *)
Lemma bold_copy repl : forall a Y,
  has_dstar (a ++ [42]) = false ->
  sub bold_re repl (a ++ DSTAR ++ Y) = a ++ sub bold_re repl (DSTAR ++ Y).
Proof.
  induction a as [|x a IH]; intros Y H; [reflexivity|].
  cbn [has_dstar app] in H. apply orb_false_iff in H as [H1 H2].
  unfold sub at 1. cbn [app]. rewrite sub_from_none.
  - rewrite bold_from_bol. f_equal. now apply IH.
  - rewrite bold_here.
    change (x :: a ++ DSTAR ++ Y) with ((x :: a) ++ 42 :: 42 :: Y).
    rewrite startswith_dstar_head. cbn [app]. now rewrite H1.
Qed.

(** A span is replaced and the scan resumes after its closing [**]. *)
Lemma bold_span repl X rest :
  no_nl X = true -> has_dstar (X ++ [42]) = false ->
  sub bold_re repl (DSTAR ++ X ++ DSTAR ++ rest) = repl X ++ sub bold_re repl rest.
Proof.
  intros Hn Hd. unfold sub at 1.
  rewrite (sub_from_some _ _ _ _ X false rest).
  - now rewrite bold_from_bol.
  - rewrite bold_here. cbn [DSTAR py map list_ascii_of_string app startswith].
    change (skipn 2 (N_of_ascii "*" :: N_of_ascii "*" :: X ++ DSTAR ++ rest))
      with (X ++ DSTAR ++ rest).
    rewrite N.eqb_refl. cbn [andb]. now apply bold_tail_complete.
  - rewrite !length_app. simpl. lia.
Qed.

Lemma occ_dstar_app a b : (occ_dstar b <= occ_dstar (a ++ b))%nat.
Proof.
  induction a as [|x a IH]; [apply Nat.le_refl|].
  cbn [app occ_dstar]. lia.
Qed.

(** A text on which the pattern matches somewhere holds [**] twice. *)
Lemma bold_match_occ bol t g cur :
  match_here bold_re bol t = Some (g, cur) -> (2 <= occ_dstar t)%nat.
Proof.
  rewrite bold_here. destruct (startswith t DSTAR) eqn:E; [|discriminate].
  intros H. apply bold_tail_sound in H as (rest & _ & Hr & _).
  apply startswith_split in E. change (length DSTAR) with 2%nat in E.
  rewrite Hr in E. rewrite E.
  pose proof (occ_dstar_app g (DSTAR ++ rest)) as H1.
  pose proof (occ_dstar_app [42] (g ++ DSTAR ++ rest)) as H2.
  assert (H3 : occ_dstar (DSTAR ++ g ++ DSTAR ++ rest)
               = S (occ_dstar ([42] ++ g ++ DSTAR ++ rest))) by reflexivity.
  assert (H4 : occ_dstar (DSTAR ++ rest) = S (occ_dstar (42 :: rest)))
    by reflexivity.
  lia.
Qed.

(** With at most one [**] nothing is replaced. *)
Lemma bold_single repl : forall t,
  (occ_dstar t <= 1)%nat -> sub bold_re repl t = t.
Proof.
  intros t. induction t as [|x t IH]; intros H; [reflexivity|].
  unfold sub. rewrite sub_from_none.
  - rewrite bold_from_bol. f_equal. apply IH. cbn [occ_dstar] in H. lia.
  - destruct (match_here bold_re true (x :: t)) as [[g cur]|] eqn:M; auto.
    apply bold_match_occ in M. lia.
Qed.

(** Without a pair on one line nothing is replaced. *)
Lemma bold_no_span repl : forall t,
  has_bold_span t = false -> sub bold_re repl t = t.
Proof.
  intros t. induction t as [|x t IH]; intros H; [reflexivity|].
  cbn [has_bold_span] in H. apply orb_false_iff in H as [H1 H2].
  unfold sub. rewrite sub_from_none.
  - rewrite bold_from_bol. f_equal. now apply IH.
  - rewrite bold_here. destruct (startswith (x :: t) DSTAR); [|reflexivity].
    apply bold_tail_none. exact H1.
Qed.

End BoldFacts.
Import BoldFacts.

(** ** The heading substitutions *)

Module HeaderFacts.
Import Re LLMHelper.

Lemma line_head_of_tail s : line_head (line_tail s) = [].
Proof.
  induction s as [|c s IH]; [reflexivity|]. simpl.
  destruct (c =? NL) eqn:E; [|exact IH]. simpl. now rewrite E.
Qed.

Lemma line_tail_of_tail s : line_tail (line_tail s) = line_tail s.
Proof.
  induction s as [|c s IH]; [reflexivity|]. simpl.
  destruct (c =? NL) eqn:E; [|exact IH]. simpl. now rewrite E.
Qed.

Lemma line_head_app p u : no_nl p = true -> line_head (p ++ u) = p ++ line_head u.
Proof.
  induction p as [|c p IH]; intros H; [reflexivity|].
  rewrite no_nl_cons in H. apply andb_prop in H as [Hc Hp].
  apply negb_true_iff in Hc. simpl. rewrite Hc. f_equal. now apply IH.
Qed.

Lemma line_tail_app p u : no_nl p = true -> line_tail (p ++ u) = line_tail u.
Proof.
  induction p as [|c p IH]; intros H; [reflexivity|].
  rewrite no_nl_cons in H. apply andb_prop in H as [Hc Hp].
  apply negb_true_iff in Hc. simpl. rewrite Hc. now apply IH.
Qed.

Lemma eol_here bol t :
  match_here [Eol] bol t =
  match t with
  | [] => Some ([], (bol, t))
  | x :: _ => if x =? NL then Some ([], (bol, t)) else None
  end.
Proof. destruct t; reflexivity. Qed.

Lemma skipn_prefix (p v : str) : skipn (length p) (p ++ v) = v.
Proof. induction p; simpl; auto. Qed.

Lemma map_split_line (f : str -> str) s :
  map f (split_nl s) =
  f (line_head s) :: match line_tail s with
                     | [] => []
                     | _ :: s' => map f (split_nl s')
                     end.
Proof.
  rewrite (split_nl_line s) at 1. cbn [map].
  now destruct (line_tail s).
Qed.

(** [(.*?)$] takes the rest of the line. *)
Lemma lazy_eol : forall t bol,
  match_here [LazyGroup; Eol] bol t =
  Some (line_head t,
        (match line_head t with [] => bol | _ :: _ => false end, line_tail t)).
Proof.
  intros t. induction t as [|x t IH]; intros bol;
    rewrite lazy_unfold, eol_here.
  - reflexivity.
  - cbn [line_head line_tail].
    destruct (x =? NL); [reflexivity|]. rewrite IH.
    now destruct (line_head t).
Qed.

Section Header.

Variables prefix open close : str.
Hypothesis prefix_not_nil : prefix <> [].
Hypothesis prefix_no_nl : no_nl prefix = true.

Let hre := header_re prefix.
Let repl := wrap open close.

Lemma header_off_bol t : match_here hre false t = None.
Proof. reflexivity. Qed.

Lemma header_at_bol t :
  match_here hre true t =
  if startswith t prefix
  then Some (line_head (skipn (length prefix) t),
             (false, line_tail (skipn (length prefix) t)))
  else None.
Proof.
  unfold hre, header_re. cbn [match_here].
  rewrite (match_lits prefix [LazyGroup; Eol] true t prefix_no_nl).
  destruct (startswith t prefix); [|reflexivity].
  rewrite lazy_eol. destruct prefix; [congruence|].
  now destruct (line_head _).
Qed.

(** Off the beginning of a line the loop copies up to the next newline. *)
Lemma header_copy_line : forall t,
  sub_from hre repl false t =
  line_head t ++ match line_tail t with
                 | [] => []
                 | x :: t' => x :: sub_from hre repl true t'
                 end.
Proof.
  intros t. induction t as [|x t IH].
  - now rewrite sub_from_nil_none.
  - rewrite sub_from_none by apply header_off_bol.
    cbn [line_head line_tail]. destruct (x =? NL); [reflexivity|].
    now rewrite IH.
Qed.

(** Where the line does not start with the prefix the anchor changes
    nothing. *)
Lemma header_no_prefix t :
  startswith t prefix = false ->
  sub_from hre repl true t = sub_from hre repl false t.
Proof.
  intros H. rewrite (sub_from_eq _ _ true), (sub_from_eq _ _ false).
  now rewrite header_at_bol, H, header_off_bol.
Qed.

(** The loop, line by line: the line at a beginning of line goes through
    [hline], a line entered in its middle is copied. *)
Lemma header_lines_from : forall n t bol,
  (length t <= n)%nat ->
  sub_from hre repl bol t =
  join_nl ((if bol then hline prefix open close (line_head t) else line_head t)
           :: match line_tail t with
              | [] => []
              | _ :: t' => map (hline prefix open close) (split_nl t')
              end).
Proof.
  induction n as [|n IH]; intros t bol L.
  - destruct t; [|simpl in L; lia].
    destruct bol; [|now rewrite sub_from_nil_none].
    rewrite header_no_prefix, sub_from_nil_none; auto.
    + unfold hline. cbn [line_head]. now destruct prefix.
    + now destruct prefix.
  - assert (Hcopy : sub_from hre repl false t =
              join_nl (line_head t ::
                       match line_tail t with
                       | [] => []
                       | _ :: t' => map (hline prefix open close) (split_nl t')
                       end)).
    { rewrite header_copy_line.
      pose proof (line_tail_length t) as Lt.
      pose proof (line_tail_head t) as Hh.
      destruct (line_tail t) as [|x t'] eqn:E.
      - simpl. apply app_nil_r.
      - subst x. rewrite join_nl_cons.
        + f_equal. f_equal. rewrite (IH t' true) by (simpl in Lt; lia).
          now rewrite (map_split_line _ t').
        + pose proof (split_nl_not_nil t'). now destruct (split_nl t'). }
    destruct bol; [|exact Hcopy].
    destruct (startswith t prefix) eqn:S.
    + apply startswith_split in S.
      remember (skipn (length prefix) t) as u eqn:Hu. clear Hu. subst t.
      assert (Hm : match_here hre true (prefix ++ u)
                   = Some (line_head u, (false, line_tail u)))
        by now rewrite header_at_bol, startswith_app, skipn_prefix.
      pose proof (line_tail_length u) as Lt.
      pose proof (line_tail_head u) as Hh.
      assert (Lp : (0 < length prefix)%nat)
        by (destruct prefix; [congruence | simpl; lia]).
      rewrite length_app in L.
      rewrite (sub_from_some _ _ _ _ _ _ _ Hm) by (rewrite length_app; lia).
      rewrite header_copy_line, line_head_of_tail, line_tail_of_tail.
      rewrite line_head_app, line_tail_app by exact prefix_no_nl.
      assert (Hl : hline prefix open close (prefix ++ line_head u)
                   = repl (line_head u))
        by (unfold hline, repl, wrap; now rewrite startswith_app, skipn_prefix).
      rewrite Hl. cbn [app].
      destruct (line_tail u) as [|x t'] eqn:E.
      * cbn [join_nl]. apply app_nil_r.
      * subst x. rewrite (IH t' true) by (simpl in Lt; lia).
        rewrite <- (map_split_line _ t'). rewrite join_nl_cons; [reflexivity|].
        pose proof (split_nl_not_nil t'). now destruct (split_nl t').
    + rewrite header_no_prefix by exact S. rewrite Hcopy.
      unfold hline. now rewrite startswith_line_head, S.
Qed.

(** A heading substitution is [hline] on every line. *)
Lemma header_lines text :
  sub hre repl text = join_nl (map (hline prefix open close) (split_nl text)).
Proof.
  unfold sub. rewrite (header_lines_from (length text) text true (le_n _)).
  now rewrite (map_split_line _ text).
Qed.

End Header.

End HeaderFacts.
Import HeaderFacts.

(** ** The formatter, line by line *)

Module FormatFacts.
Import Re LLMHelper.

Lemma no_nl_hline p o c l :
  no_nl o = true -> no_nl c = true -> no_nl l = true ->
  no_nl (hline p o c l) = true.
Proof.
  intros Ho Hc Hl. unfold hline. destruct (startswith l p); auto.
  rewrite !no_nl_app, Ho, Hc, (no_nl_skipn _ _ Hl). reflexivity.
Qed.

Lemma forallb_map_no_nl (f : str -> str) ls :
  (forall l, no_nl l = true -> no_nl (f l) = true) ->
  forallb no_nl ls = true -> forallb no_nl (map f ls) = true.
Proof.
  intros Hf. induction ls as [|l ls IH]; simpl; auto.
  intros H. apply andb_prop in H as [H1 H2]. now rewrite Hf, IH.
Qed.

Lemma sub_h3_lines text :
  sub_h3 text = join_nl (map h3_line (split_nl text)).
Proof. apply header_lines; [discriminate | reflexivity]. Qed.

Lemma sub_h2_lines text :
  sub_h2 text = join_nl (map h2_line (split_nl text)).
Proof. apply header_lines; [discriminate | reflexivity]. Qed.

Lemma sub_h1_lines text :
  sub_h1 text = join_nl (map h1_line (split_nl text)).
Proof. apply header_lines; [discriminate | reflexivity]. Qed.

Lemma map_not_nil {A B} (f : A -> B) l : l <> [] -> map f l <> [].
Proof. destruct l; simpl; congruence. Qed.

(** The three heading substitutions are [heading_line] on every line. *)
Lemma headers_lines text :
  sub_h1 (sub_h2 (sub_h3 text)) = join_nl (map heading_line (split_nl text)).
Proof.
  rewrite sub_h3_lines, sub_h2_lines, sub_h1_lines.
  pose proof (split_nl_not_nil text) as Hn.
  pose proof (split_nl_no_nl text) as Hl.
  assert (H3 : forallb no_nl (map h3_line (split_nl text)) = true).
  { apply forallb_map_no_nl; auto. intros l. now apply no_nl_hline. }
  rewrite (split_join_nl (map h3_line (split_nl text)))
    by (auto using map_not_nil).
  assert (H2 : forallb no_nl (map h2_line (map h3_line (split_nl text))) = true).
  { apply forallb_map_no_nl; auto. intros l. now apply no_nl_hline. }
  rewrite split_join_nl by (auto using map_not_nil).
  now rewrite !map_map.
Qed.

Lemma scanned_lines_no_nl text : forallb no_nl (scanned_lines text) = true.
Proof.
  apply forallb_map_no_nl; [|apply split_nl_no_nl].
  intros l H. unfold heading_line, h1_line, h2_line, h3_line.
  repeat apply no_nl_hline; auto.
Qed.

Lemma format_scanned text :
  format_markdown_to_html text =
  join_nl (close_list (scan (scanned_lines text) ([], false))).
Proof.
  unfold format_markdown_to_html, list_pass. rewrite headers_lines.
  fold (scanned_lines text). rewrite split_join_nl; auto.
  - apply map_not_nil, split_nl_not_nil.
  - apply scanned_lines_no_nl.
Qed.

(** *** One iteration of the scan *)

Lemma blank_not_bullet l : is_blank l = true -> is_bullet l = false.
Proof.
  unfold is_blank, is_bullet. destruct (strip l); [reflexivity | discriminate].
Qed.

Lemma scan_line_bullet fl il l :
  is_bullet l = true ->
  scan_line (fl, il) l =
  ((if il then fl else fl ++ [UL_OPEN]) ++ [list_item l], true).
Proof.
  unfold is_bullet, scan_line. intros ->. now destruct il.
Qed.

Lemma scan_line_other fl il l :
  is_bullet l = false ->
  scan_line (fl, il) l =
  ((if il then fl ++ [UL_CLOSE] else fl)
   ++ (if is_blank l then [] else [paragraph l]), false).
Proof.
  unfold is_bullet, is_blank, scan_line. intros ->.
  destruct (truthy (strip l)); simpl; [reflexivity | now rewrite app_nil_r].
Qed.

Lemma scan_app ls1 ls2 st : scan (ls1 ++ ls2) st = scan ls2 (scan ls1 st).
Proof. apply fold_left_app. Qed.

Lemma scan_cons l ls st : scan (l :: ls) st = scan ls (scan_line st l).
Proof. reflexivity. Qed.

(** *** The markers of an output *)

Lemma markers_app a b : markers (a ++ b) = markers a ++ markers b.
Proof.
  induction a as [|l a IH]; [reflexivity|]. cbn [app markers].
  destruct (str_eqb l UL_OPEN); [now rewrite IH|].
  destruct (str_eqb l UL_CLOSE); now rewrite IH.
Qed.

Lemma markers_item l : markers [list_item l] = [].
Proof. reflexivity. Qed.

Lemma markers_paragraph l : markers [paragraph l] = [].
Proof. reflexivity. Qed.

Lemma markers_split_join fl :
  forallb no_nl fl = true -> markers (split_nl (join_nl fl)) = markers fl.
Proof.
  intros H. destruct fl as [|l fl]; [reflexivity|].
  rewrite split_join_nl; auto. discriminate.
Qed.

Lemma count_open_app a b : count_open (a ++ b) = (count_open a + count_open b)%nat.
Proof. unfold count_open. now rewrite filter_app, length_app. Qed.

Lemma count_close_app a b :
  count_close (a ++ b) = (count_close a + count_close b)%nat.
Proof. unfold count_close. now rewrite filter_app, length_app. Qed.

Lemma depth_after_app ms1 : forall d d' ms2,
  depth_after d ms1 = Some d' ->
  depth_after d (ms1 ++ ms2) = depth_after d' ms2.
Proof.
  induction ms1 as [|m ms1 IH]; intros d d' ms2 H; simpl in *.
  - now injection H as ->.
  - destruct m; [now apply IH|]. destruct d; [discriminate | now apply IH].
Qed.

Lemma depth_after_nested ms : forall d,
  depth_after d ms = Some O -> well_nested d ms = true.
Proof.
  induction ms as [|m ms IH]; intros d H; simpl in *.
  - now injection H as ->.
  - destruct m; [now apply IH|]. destruct d; [discriminate | now apply IH].
Qed.

Lemma no_nl_item l : no_nl l = true -> no_nl (list_item l) = true.
Proof.
  intros H. unfold list_item, slice_from.
  rewrite !no_nl_app, (no_nl_skipn _ _ (no_nl_strip _ H)). reflexivity.
Qed.

Lemma no_nl_paragraph l : no_nl l = true -> no_nl (paragraph l) = true.
Proof. intros H. unfold paragraph. rewrite !no_nl_app, H. reflexivity. Qed.

Lemma scan_line_inv st l :
  no_nl l = true -> scan_inv st -> scan_inv (scan_line st l).
Proof.
  destruct st as [fl il]. intros Hl (Hn & Hd & Hc). cbn [fst snd] in *.
  destruct (is_bullet l) eqn:B.
  - rewrite (scan_line_bullet _ _ _ B). unfold scan_inv. cbn [fst snd].
    destruct il.
    + rewrite forallb_app, markers_app, markers_item, app_nil_r, Hn.
      cbn [forallb]. rewrite (no_nl_item _ Hl). auto.
    + rewrite !forallb_app, !markers_app, markers_item, app_nil_r, Hn.
      cbn [forallb]. rewrite (no_nl_item _ Hl).
      rewrite (depth_after_app _ _ _ _ Hd), count_open_app, count_close_app.
      repeat split. change (markers [UL_OPEN]) with [ListOpen].
      cbn. lia.
  - rewrite (scan_line_other _ _ _ B). unfold scan_inv. cbn [fst snd].
    assert (Hp : forallb no_nl (if is_blank l then [] else [paragraph l]) = true)
      by (destruct (is_blank l); cbn [forallb];
          rewrite ?(no_nl_paragraph _ Hl); reflexivity).
    assert (Hm : markers (if is_blank l then [] else [paragraph l]) = [])
      by now destruct (is_blank l).
    destruct il.
    + rewrite !forallb_app, !markers_app, Hm, app_nil_r, Hn, Hp.
      rewrite (depth_after_app _ _ _ _ Hd), count_open_app, count_close_app.
      repeat split. change (markers [UL_CLOSE]) with [ListClose].
      cbn. lia.
    + rewrite forallb_app, markers_app, Hm, app_nil_r, Hn, Hp. auto.
Qed.

Lemma scan_inv_all ls : forall st,
  forallb no_nl ls = true -> scan_inv st -> scan_inv (scan ls st).
Proof.
  induction ls as [|l ls IH]; intros st H I; [exact I|].
  simpl in H. apply andb_prop in H as [H1 H2].
  rewrite scan_cons. apply IH; auto. now apply scan_line_inv.
Qed.

(** After the final close the markers are balanced. *)
Lemma close_list_balanced st :
  scan_inv st ->
  forallb no_nl (close_list st) = true
  /\ depth_after 0 (markers (close_list st)) = Some O
  /\ count_open (markers (close_list st)) = count_close (markers (close_list st)).
Proof.
  destruct st as [fl il]. intros (Hn & Hd & Hc). cbn [fst snd close_list] in *.
  destruct il.
  - rewrite forallb_app, markers_app, Hn, (depth_after_app _ _ _ _ Hd).
    rewrite count_open_app, count_close_app.
    change (markers [UL_CLOSE]) with [ListClose]. cbn. repeat split. lia.
  - repeat split; auto. lia.
Qed.

(** Without bullets the scan makes one paragraph of every line that is not
    blank. *)
Lemma scan_no_bullets ls : forall fl,
  forallb (fun l => negb (is_bullet l)) ls = true ->
  scan ls (fl, false) =
  (fl ++ map paragraph (filter (fun l => negb (is_blank l)) ls), false).
Proof.
  induction ls as [|l ls IH]; intros fl H.
  - simpl. now rewrite app_nil_r.
  - simpl in H. apply andb_prop in H as [H1 H2]. apply negb_true_iff in H1.
    rewrite scan_cons, (scan_line_other _ _ _ H1), (IH _ H2).
    cbn [filter]. destruct (is_blank l); cbn [negb map].
    + now rewrite app_nil_r.
    + now rewrite <- app_assoc.
Qed.

End FormatFacts.
Import FormatFacts.

(** * The claims *)

Module Formatter.
Import Re LLMHelper.

(** ** C1: blank lines in the list scan *)

(** C1, at the input of two bullets separated by an empty line: the empty
    line closes the list, so the output holds two list blocks, each with one
    item, and not one block with both items. *)
Lemma blank_line_splits_list :
  let text := py "- a" ++ NL :: NL :: py "- b" in
  format_markdown_to_html text =
    join_nl [UL_OPEN; list_item (py "- a"); UL_CLOSE;
             UL_OPEN; list_item (py "- b"); UL_CLOSE]
  /\ format_markdown_to_html text <>
       join_nl [UL_OPEN; list_item (py "- a"); list_item (py "- b"); UL_CLOSE]
  /\ count_open (markers (split_nl (format_markdown_to_html text))) = 2%nat.
Proof. vm_compute. repeat split. discriminate. Qed.

(** C1 (amended): in the list scan a blank line makes no paragraph and no
    item, and it closes the list when one is open; so two bullet lines with
    a blank line between them end up in two list blocks, whatever comes
    before and after; and a list still open after the last line is closed at
    the end of the text. *)
Theorem blank_line_closes_list :
  (forall fl il e, is_blank e = true ->
     scan_line (fl, il) e = (if il then fl ++ [UL_CLOSE] else fl, false))
  /\ (forall fl il b1 e b2 rest,
        is_bullet b1 = true -> is_blank e = true -> is_bullet b2 = true ->
        scan (b1 :: e :: b2 :: rest) (fl, il) =
        scan rest
          ((if il then fl else fl ++ [UL_OPEN])
           ++ [list_item b1; UL_CLOSE; UL_OPEN; list_item b2], true))
  /\ (forall text fl,
        scan (split_nl text) ([], false) = (fl, true) ->
        list_pass text = join_nl (fl ++ [UL_CLOSE])).
Proof.
  split; [|split].
  - intros fl il e He.
    rewrite (scan_line_other _ _ _ (blank_not_bullet _ He)), He.
    now rewrite app_nil_r.
  - intros fl il b1 e b2 rest H1 He H2.
    rewrite !scan_cons, (scan_line_bullet _ _ _ H1).
    rewrite (scan_line_other _ _ _ (blank_not_bullet _ He)), He.
    rewrite (scan_line_bullet _ _ _ H2).
    now rewrite app_nil_r, <- !app_assoc.
  - intros text fl H. unfold list_pass. now rewrite H.
Qed.

Lemma blank_line_closes_list_witness :
  scan [py "- a"; []; py "- b"] ([], false) =
  ([UL_OPEN; list_item (py "- a"); UL_CLOSE; UL_OPEN; list_item (py "- b")],
   true).
Proof.
  exact (proj1 (proj2 blank_line_closes_list)
           [] false (py "- a") [] (py "- b") [] eq_refl eq_refl eq_refl).
Defined.

(** ** C2: text without markdown tokens *)

(** C2, at the two-line input [" a\nb"]: it holds no markdown token, and the
    output is two paragraph blocks, the first with its leading space; it is
    not one paragraph around the trimmed lines. *)
Lemma plain_text_not_one_trimmed_paragraph :
  let text := py " a" ++ NL :: py "b" in
  has_bold_span text = false
  /\ forallb (fun l => negb (is_heading l)) (split_nl text) = true
  /\ forallb (fun l => negb (is_bullet l)) (split_nl text) = true
  /\ format_markdown_to_html text =
       paragraph (py " a") ++ NL :: paragraph (py "b")
  /\ format_markdown_to_html text <>
       paragraph (join_nl (map strip (split_nl text))).
Proof. vm_compute. repeat split. discriminate. Qed.

Lemma heading_line_plain l : is_heading l = false -> heading_line l = l.
Proof.
  unfold is_heading. intros H.
  apply orb_false_iff in H as [H H1]. apply orb_false_iff in H as [H3 H2].
  unfold heading_line, h1_line, h2_line, h3_line, hline.
  now rewrite H3, H2, H1.
Qed.

(** C2 (amended): for a text with no [**] pair, no heading line and no
    bullet line, the output is one paragraph block for each line that is not
    blank, in order and joined by newlines, around the line as it is
    written. *)
Theorem plain_text_paragraph_per_line text :
  has_bold_span text = false ->
  forallb (fun l => negb (is_heading l)) (split_nl text) = true ->
  forallb (fun l => negb (is_bullet l)) (split_nl text) = true ->
  format_markdown_to_html text =
  join_nl (map paragraph (filter (fun l => negb (is_blank l)) (split_nl text))).
Proof.
  intros Hb Hh Hl. rewrite format_scanned. unfold scanned_lines, sub_bold.
  rewrite (bold_no_span _ _ Hb).
  assert (E : map heading_line (split_nl text) = split_nl text).
  { rewrite <- (map_id (split_nl text)) at 2. apply map_ext_in.
    intros l Hin. apply heading_line_plain.
    rewrite forallb_forall in Hh. apply negb_true_iff. now apply Hh. }
  rewrite E, (scan_no_bullets _ _ Hl). reflexivity.
Qed.

Lemma plain_text_paragraph_per_line_witness :
  format_markdown_to_html (py " a" ++ NL :: NL :: py "b") =
  join_nl [paragraph (py " a"); paragraph (py "b")].
Proof.
  exact (plain_text_paragraph_per_line (py " a" ++ NL :: NL :: py "b")
           eq_refl eq_refl eq_refl).
Defined.

(** ** C3: headings *)

(** C3, at ["### Title\nbody"]: the output is not the heading block followed
    by the paragraph block; the heading block sits inside a paragraph block
    of its own. *)
Lemma heading_not_bare_block :
  let text := py "### Title" ++ NL :: py "body" in
  format_markdown_to_html text <>
    heading3 (py "Title") ++ NL :: paragraph (py "body").
Proof. vm_compute. discriminate. Qed.

(** A string that starts and ends with a character that is not white space
    is its own strip. *)
Lemma strip_wrapped a o b c x :
  isspace a = false -> isspace b = false ->
  strip ((a :: o) ++ x ++ c ++ [b]) = (a :: o) ++ x ++ c ++ [b].
Proof.
  intros Ha Hb. unfold strip, rstrip.
  rewrite (lstrip_fixed ((a :: o) ++ x ++ c ++ [b])) by exact Ha.
  assert (E : (a :: o) ++ x ++ c ++ [b] = ((a :: o) ++ x ++ c) ++ [b])
    by now rewrite <- !app_assoc.
  rewrite E. generalize ((a :: o) ++ x ++ c). intros y.
  rewrite rev_app_distr. cbn [rev app].
  rewrite lstrip_fixed by exact Hb.
  cbn [rev]. now rewrite rev_involutive.
Qed.

Lemma heading_line_markup l :
  is_heading l = true -> heading_markup (heading_line l).
Proof.
  unfold is_heading, heading_line, h1_line, h2_line, h3_line, hline.
  destruct (startswith l H3_PREFIX) eqn:E3.
  - intros _. apply markup_h3.
  - destruct (startswith l H2_PREFIX) eqn:E2.
    + intros _. apply markup_h2.
    + cbn [orb]. intros ->. apply markup_h1.
Qed.

Lemma heading_markup_strip h : heading_markup h -> strip h = h.
Proof.
  intros [y|y|y].
  - exact (strip_wrapped 60 (tl H3_OPEN) 62 (removelast H3_CLOSE) y
             eq_refl eq_refl).
  - exact (strip_wrapped 60 (tl H2_OPEN) 62 (removelast H2_CLOSE) y
             eq_refl eq_refl).
  - exact (strip_wrapped 60 (tl H1_OPEN) 62 (removelast H1_CLOSE) y
             eq_refl eq_refl).
Qed.

Lemma heading_markup_scan h :
  heading_markup h -> is_bullet h = false /\ is_blank h = false.
Proof.
  intros H. unfold is_bullet, is_blank. rewrite (heading_markup_strip _ H).
  destruct H; split; reflexivity.
Qed.

(** C3 (amended): ["### Title\nbody"] yields a paragraph block around the
    level-3 heading block of ["Title"], followed by a paragraph block of
    ["body"]; the list scan reads the lines the heading substitutions leave,
    and a line that matched a heading pattern is never a list item there: it
    closes an open list and becomes a paragraph. *)
Theorem heading_in_paragraph_never_item :
  format_markdown_to_html (py "### Title" ++ NL :: py "body") =
    paragraph (heading3 (py "Title")) ++ NL :: paragraph (py "body")
  /\ (forall text,
        format_markdown_to_html text =
        join_nl (close_list
                   (scan (map heading_line (split_nl (sub_bold text)))
                         ([], false))))
  /\ (forall l fl il,
        is_heading l = true ->
        is_bullet (heading_line l) = false
        /\ scan_line (fl, il) (heading_line l) =
           ((if il then fl ++ [UL_CLOSE] else fl)
            ++ [paragraph (heading_line l)], false)).
Proof.
  split; [|split].
  - vm_compute. reflexivity.
  - exact format_scanned.
  - intros l fl il H. apply heading_line_markup, heading_markup_scan in H.
    destruct H as [Hb Hk]. split; [exact Hb|].
    now rewrite (scan_line_other _ _ _ Hb), Hk.
Qed.

Lemma heading_in_paragraph_never_item_witness :
  is_bullet (heading_line (py "## - x")) = false
  /\ scan_line ([UL_OPEN; list_item (py "- a")], true) (heading_line (py "## - x")) =
     ([UL_OPEN; list_item (py "- a"); UL_CLOSE;
       paragraph (heading_line (py "## - x"))], false).
Proof.
  exact (proj2 (proj2 heading_in_paragraph_never_item)
           (py "## - x") [UL_OPEN; list_item (py "- a")] true eq_refl).
Defined.

(** ** C10: list markers *)

(** C10: among the lines of every output, the list-open and list-close
    markers are equal in number and well nested: every close comes after an
    open of its own and no open is left without its close.  A marker is an
    output line that is exactly the opening or the closing tag of a list. *)
Theorem list_markers_balanced text :
  let ms := markers (split_nl (format_markdown_to_html text)) in
  count_open ms = count_close ms /\ well_nested 0 ms = true.
Proof.
  cbv zeta. rewrite format_scanned.
  assert (I : scan_inv (scan (scanned_lines text) ([], false))).
  { apply scan_inv_all; [apply scanned_lines_no_nl|].
    repeat split. }
  apply close_list_balanced in I as (Hn & Hd & Hc).
  rewrite (markers_split_join _ Hn). split; [exact Hc|].
  now apply depth_after_nested.
Qed.

End Formatter.

Module Transcript.
Import LLMHelper DataChatBotDemo.

(** ** C5: rendering the transcript *)

Lemma build_from acc h :
  fold_left
    (fun formatted_html '(sender, message) =>
       let is_user := str_eqb sender YOU in
       formatted_html ++ format_chat_message sender message is_user)
    h acc
  = acc ++ concat (map render_entry h).
Proof.
  revert acc. induction h as [|[sender message] h IH]; intros acc.
  - simpl. now rewrite app_nil_r.
  - cbn [fold_left map concat]. rewrite IH, <- app_assoc. reflexivity.
Qed.

(** C5: the rendering of a transcript is, entry after entry, the user
    template around the message as it is typed when the sender is ["You"],
    and otherwise the assistant template around the formatted message. *)
Theorem render_user_verbatim_assistant_formatted :
  (forall chat_history,
     build_chat_history_html chat_history = concat (map render_entry chat_history))
  /\ (forall message,
        render_entry (YOU, message) =
        USER_HEAD ++ YOU ++ USER_MID ++ message ++ USER_TAIL)
  /\ (forall sender message,
        sender <> YOU ->
        render_entry (sender, message) =
        AI_HEAD ++ format_markdown_to_html message ++ AI_TAIL)
  /\ build_chat_history_html [(YOU, py "# a - b"); (py "AI", py "# a - b")] =
       (USER_HEAD ++ YOU ++ USER_MID ++ py "# a - b" ++ USER_TAIL)
       ++ (AI_HEAD ++ paragraph (H1_OPEN ++ py "a - b" ++ H1_CLOSE) ++ AI_TAIL).
Proof.
  split; [|split; [|split]].
  - intros h. unfold build_chat_history_html. now rewrite build_from.
  - reflexivity.
  - intros sender message H. unfold render_entry.
    destruct (str_eqb sender YOU) eqn:E; [|reflexivity].
    apply str_eqb_eq in E. contradiction.
  - vm_compute. reflexivity.
Qed.

Lemma render_user_verbatim_assistant_formatted_witness :
  render_entry (py "AI", py "- x") =
  AI_HEAD ++ format_markdown_to_html (py "- x") ++ AI_TAIL.
Proof.
  apply (proj1 (proj2 (proj2 render_user_verbatim_assistant_formatted))).
  discriminate.
Defined.

(** ** C6: append *)

(** C6: [_add_to_chat] with a message that strips to the empty string
    leaves the transcript as it is, so its length too; with any other
    message it adds one entry, the sender with the stripped message, at the
    end; on an empty transcript, ("You", "hi") and then ("AI", "hello") give
    the snapshot [("You", "hi"); ("AI", "hello")]. *)
Theorem add_to_chat_appends_or_skips :
  (forall self sender message,
     strip message = [] ->
     _add_to_chat self sender message = self
     /\ length (get_chat_history (_add_to_chat self sender message))
        = length (get_chat_history self))
  /\ (forall self sender message,
        strip message <> [] ->
        get_chat_history (_add_to_chat self sender message)
        = get_chat_history self ++ [(sender, strip message)]
        /\ length (get_chat_history (_add_to_chat self sender message))
           = S (length (get_chat_history self)))
  /\ (forall self,
        get_chat_history self = [] ->
        get_chat_history
          (_add_to_chat (_add_to_chat self (py "You") (py "hi"))
                        (py "AI") (py "hello"))
        = [(py "You", py "hi"); (py "AI", py "hello")]).
Proof.
  assert (Hadd : forall self sender message,
            strip message <> [] ->
            get_chat_history (_add_to_chat self sender message)
            = get_chat_history self ++ [(sender, strip message)]).
  { intros self sender message H. unfold _add_to_chat, get_chat_history.
    destruct (strip message) as [|c m] eqn:E; [congruence | reflexivity]. }
  split; [|split].
  - intros self sender message H. unfold _add_to_chat. now rewrite H.
  - intros self sender message H. rewrite (Hadd _ _ _ H).
    split; [reflexivity|]. rewrite length_app. simpl. lia.
  - intros self H. rewrite !Hadd, H by (vm_compute; discriminate).
    reflexivity.
Qed.

Lemma add_to_chat_appends_or_skips_witness :
  get_chat_history (_add_to_chat init (py "You") (py "  ")) = []
  /\ get_chat_history (_add_to_chat init (py "You") (py " hi ")) =
       [(py "You", py "hi")]
  /\ get_chat_history
       (_add_to_chat (_add_to_chat init (py "You") (py "hi"))
                     (py "AI") (py "hello"))
     = [(py "You", py "hi"); (py "AI", py "hello")].
Proof.
  split; [|split].
  - exact (f_equal get_chat_history
             (proj1 (proj1 add_to_chat_appends_or_skips
                       init (py "You") (py "  ") eq_refl))).
  - refine (proj1 (proj1 (proj2 add_to_chat_appends_or_skips)
                     init (py "You") (py " hi ") _)).
    vm_compute. discriminate.
  - exact (proj2 (proj2 add_to_chat_appends_or_skips) init eq_refl).
Defined.

(** ** C7: clear *)

(** C7: after any appends, [clear_chat_history] leaves an empty snapshot
    and the welcome markup in the chat area, and that markup is not the
    empty string. *)
Theorem clear_resets_to_welcome :
  forall (appends : list (str * str)) self,
    let self' :=
      clear_chat_history
        (fold_left (fun s '(sender, message) => _add_to_chat s sender message)
                   appends self) in
    get_chat_history self' = []
    /\ chat_area self' = Styles.get_welcome_message
    /\ Styles.get_welcome_message <> [].
Proof.
  intros appends self. cbv zeta. repeat split. discriminate.
Qed.

(** ** C8: choosing the model *)

Lemma str_in_In x xs : str_in x xs = true <-> In x xs.
Proof.
  unfold str_in. rewrite existsb_exists. split.
  - intros (y & Hy & E). apply str_eqb_eq in E. now subst.
  - intros H. exists x. split; [exact H | now apply str_eqb_eq].
Qed.

(** C8: [set_model] raises exactly when the name is not one of
    ["gpt-4o-mini"], ["gpt-4o"], ["gpt-3.5-turbo"]; when it raises the model
    of the helper is what it was, and when it returns it is the name
    asked for. *)
Theorem set_model_raises_iff_unavailable :
  get_available_models = [py "gpt-4o-mini"; py "gpt-4o"; py "gpt-3.5-turbo"]
  /\ forall self name,
       ((exists e, fst (set_model self name) = Raised e)
        <-> ~ In name get_available_models)
       /\ (forall e, fst (set_model self name) = Raised e ->
           model (snd (set_model self name)) = model self)
       /\ (fst (set_model self name) = Returned ->
           model (snd (set_model self name)) = name).
Proof.
  split; [reflexivity|]. intros self name. unfold set_model.
  destruct (str_in name get_available_models) eqn:E; cbn [negb fst snd].
  - apply str_in_In in E. repeat split.
    + intros [e H]. discriminate.
    + intros H. contradiction.
    + intros e H. discriminate.
  - assert (N : ~ In name get_available_models).
    { intros H. apply str_in_In in H. congruence. }
    repeat split.
    + intros _. exact N.
    + intros _. eexists. reflexivity.
    + intros H. discriminate.
Qed.

Lemma set_model_raises_iff_unavailable_witness :
  model (snd (set_model {| model := MODEL |} (py "gpt-4o"))) = py "gpt-4o"
  /\ model (snd (set_model {| model := MODEL |} (py "gpt-5"))) = MODEL.
Proof.
  split.
  - exact (proj2 (proj2 (proj2 set_model_raises_iff_unavailable
                           {| model := MODEL |} (py "gpt-4o"))) eq_refl).
  - exact (proj1 (proj2 (proj2 set_model_raises_iff_unavailable
                           {| model := MODEL |} (py "gpt-5"))) _ eq_refl).
Defined.

(** ** C9: the history invariant *)

(** C9: in every transcript the operations can reach, each message is
    non-empty and equal to its own strip: it holds at the start, an append
    keeps it (it stores the stripped message, and only when that is not
    empty), and a clear empties the history. *)
Theorem chat_history_messages_stripped :
  history_inv (chat_history init)
  /\ (forall self sender message,
        history_inv (chat_history self) ->
        history_inv (chat_history (_add_to_chat self sender message)))
  /\ (forall self, history_inv (chat_history (clear_chat_history self)))
  /\ (forall ops, history_inv (chat_history (run ops init))).
Proof.
  assert (Hinit : history_inv (chat_history init)) by constructor.
  assert (Hadd : forall self sender message,
            history_inv (chat_history self) ->
            history_inv (chat_history (_add_to_chat self sender message))).
  { intros self sender message H. unfold _add_to_chat.
    destruct (truthy (strip message)) eqn:E; cbn [negb]; [|exact H].
    cbn [chat_history]. apply Forall_app. split; [exact H|].
    constructor; [|constructor]. cbn [snd]. split.
    - now apply truthy_true.
    - apply strip_idem. }
  assert (Hclear : forall self,
            history_inv (chat_history (clear_chat_history self)))
    by (intros self; constructor).
  repeat split; auto.
  intros ops. unfold run.
  generalize init Hinit. induction ops as [|o ops IH]; intros s Hs; [exact Hs|].
  cbn [fold_left]. apply IH. destruct o; cbn [step]; auto.
Qed.

Lemma chat_history_messages_stripped_witness :
  history_inv (chat_history (_add_to_chat init (py "You") (py " hi  "))).
Proof.
  apply (proj1 (proj2 chat_history_messages_stripped)). constructor.
Defined.

End Transcript.

(** * Further properties *)

(** ** The emphasis substitution, line by line *)

Module BoldLines.
Import Re LLMHelper.

Lemma startswith_dstar_line r s :
  startswith (r ++ NL :: s) DSTAR = startswith r DSTAR.
Proof. destruct r as [|x [|y r]]; reflexivity. Qed.

Lemma skipn2_line r s :
  startswith r DSTAR = true -> skipn 2 (r ++ NL :: s) = skipn 2 r ++ NL :: s.
Proof.
  destruct r as [|x [|y r]]; try discriminate; [|reflexivity].
  cbn. rewrite andb_false_r. discriminate.
Qed.

(** What a successful match says of the text. *)
Lemma bold_match_shape b t g b' rest :
  match_here bold_re b t = Some (g, (b', rest)) ->
  t = DSTAR ++ g ++ DSTAR ++ rest /\ no_nl g = true.
Proof.
  rewrite bold_here. destruct (startswith t DSTAR) eqn:E; [|discriminate].
  intros H. apply bold_tail_sound in H as (rest' & [= _ <-] & Hr & Hn).
  apply startswith_split in E. change (length DSTAR) with 2%nat in E.
  rewrite Hr in E. now split.
Qed.

(** A newline ends the search for the closing [**]: the match on a line
    does not depend on what follows the line. *)
Lemma bold_tail_line : forall r s b,
  no_nl r = true ->
  match_here bold_tail b (r ++ NL :: s) =
  match match_here bold_tail b r with
  | Some (g, (b', rest)) => Some (g, (b', rest ++ NL :: s))
  | None => None
  end.
Proof.
  induction r as [|x r IH]; intros s b H; unfold bold_tail.
  - reflexivity.
  - rewrite (lazy_unfold _ b ((x :: r) ++ NL :: s)), (lazy_unfold _ b (x :: r)).
    rewrite !close_here, startswith_dstar_line.
    destruct (startswith (x :: r) DSTAR) eqn:E.
    + now rewrite (skipn2_line _ _ E).
    + rewrite no_nl_cons in H. apply andb_prop in H as [Hx Hr].
      apply negb_true_iff in Hx. cbn [app]. rewrite Hx.
      fold bold_tail. rewrite (IH s false Hr).
      now destruct (match_here bold_tail false r) as [[g [b' rest]]|].
Qed.

Lemma bold_here_line l s b :
  no_nl l = true ->
  match_here bold_re b (l ++ NL :: s) =
  match match_here bold_re b l with
  | Some (g, (b', rest)) => Some (g, (b', rest ++ NL :: s))
  | None => None
  end.
Proof.
  intros H. rewrite !bold_here, startswith_dstar_line.
  destruct (startswith l DSTAR) eqn:E; [|reflexivity].
  rewrite (skipn2_line _ _ E). apply bold_tail_line.
  now apply no_nl_skipn.
Qed.

Section Repl.

Variable repl : str -> str.

(** The substitution on a line followed by more text. *)
Lemma bold_line_then : forall n l s,
  (length l <= n)%nat -> no_nl l = true ->
  sub bold_re repl (l ++ NL :: s) =
  sub bold_re repl l ++ NL :: sub bold_re repl s.
Proof.
  induction n as [|n IH]; intros l s L H.
  - destruct l; [|simpl in L; lia]. cbn [app]. unfold sub at 1 2.
    rewrite sub_from_none by reflexivity.
    rewrite sub_from_nil_none by reflexivity.
    now rewrite N.eqb_refl.
  - destruct l as [|x l]; [apply (IH [] s); [simpl; lia | reflexivity]|].
    unfold sub at 1 2.
    rewrite (sub_from_eq _ _ true ((x :: l) ++ NL :: s)).
    rewrite (sub_from_eq _ _ true (x :: l)).
    rewrite (bold_here_line _ _ _ H).
    destruct (match_here bold_re true (x :: l)) as [[g [b' rest]]|] eqn:M.
    + destruct (bold_match_shape _ _ _ _ _ M) as [E Hg].
      assert (Lr : (length rest < length (x :: l))%nat).
      { rewrite E, !length_app. simpl. lia. }
      assert (Hr : no_nl rest = true).
      { rewrite E, !no_nl_app in H. repeat (apply andb_prop in H as [? H]).
        exact H. }
      assert (L1 : (length (rest ++ NL :: s) <? length ((x :: l) ++ NL :: s))%nat
                   = true).
      { apply Nat.ltb_lt. rewrite !length_app. simpl in *. lia. }
      apply Nat.ltb_lt in Lr as L2. rewrite L1, L2, !bold_from_bol.
      rewrite (IH rest s) by (auto; simpl in *; lia).
      now rewrite <- app_assoc.
    + cbn [app]. rewrite !bold_from_bol.
      rewrite no_nl_cons in H. apply andb_prop in H as [_ Hl].
      rewrite (IH l s) by (auto; simpl in L; lia). reflexivity.
Qed.

Hypothesis repl_no_nl : forall g, no_nl g = true -> no_nl (repl g) = true.

(** On a line the substitution gives a line. *)
Lemma bold_line_no_nl : forall n l,
  (length l <= n)%nat -> no_nl l = true -> no_nl (sub bold_re repl l) = true.
Proof.
  induction n as [|n IH]; intros l L H.
  - destruct l; [reflexivity | simpl in L; lia].
  - unfold sub. rewrite sub_from_eq.
    destruct (match_here bold_re true l) as [[g [b' rest]]|] eqn:M.
    + destruct (bold_match_shape _ _ _ _ _ M) as [E Hg].
      assert (Lr : (length rest < length l)%nat).
      { rewrite E, !length_app. simpl. lia. }
      assert (Hr : no_nl rest = true).
      { rewrite E, !no_nl_app in H. repeat (apply andb_prop in H as [? H]).
        exact H. }
      apply Nat.ltb_lt in Lr as L2. rewrite L2, bold_from_bol, no_nl_app.
      rewrite (repl_no_nl _ Hg), (IH rest) by (auto; lia). reflexivity.
    + destruct l as [|x l]; [reflexivity|].
      rewrite bold_from_bol, no_nl_cons.
      rewrite no_nl_cons in H. apply andb_prop in H as [Hx Hl].
      rewrite Hx, (IH l) by (auto; simpl in L; lia). reflexivity.
Qed.

(** The substitution is the substitution on every line. *)
Lemma bold_lines_upto : forall n text,
  (length text <= n)%nat ->
  sub bold_re repl text = join_nl (map (sub bold_re repl) (split_nl text)).
Proof.
  induction n as [|n IH]; intros text L.
  - destruct text; [reflexivity | simpl in L; lia].
  - rewrite (split_nl_line text).
    pose proof (line_head_tail text) as E.
    pose proof (line_tail_head text) as Hh.
    pose proof (line_head_no_nl text) as Hn.
    destruct (line_tail text) as [|c s] eqn:T.
    + rewrite app_nil_r in E. now rewrite <- E.
    + subst c. cbn [map]. rewrite join_nl_cons
        by (apply map_not_nil, split_nl_not_nil).
      assert (Ls : (length s <= n)%nat).
      { rewrite E, length_app in L. simpl in L. lia. }
      rewrite <- (IH s Ls). rewrite E at 1.
      apply (bold_line_then (length (line_head text))); auto.
Qed.

End Repl.

Lemma wrap_no_nl o c g :
  no_nl o = true -> no_nl c = true -> no_nl g = true ->
  no_nl (wrap o c g) = true.
Proof. intros Ho Hc Hg. unfold wrap. now rewrite !no_nl_app, Ho, Hc, Hg. Qed.

Lemma sub_bold_lines text :
  sub_bold text = join_nl (map sub_bold (split_nl text)).
Proof. apply (bold_lines_upto _ (length text)), le_n. Qed.

Lemma sub_bold_no_nl l : no_nl l = true -> no_nl (sub_bold l) = true.
Proof.
  apply (bold_line_no_nl _ (fun g => wrap_no_nl B_OPEN B_CLOSE g eq_refl eq_refl)
           (length l)), le_n.
Qed.

Lemma split_sub_bold text :
  split_nl (sub_bold text) = map sub_bold (split_nl text).
Proof.
  rewrite sub_bold_lines at 1. apply split_join_nl.
  - apply map_not_nil, split_nl_not_nil.
  - apply forallb_map_no_nl; [apply sub_bold_no_nl | apply split_nl_no_nl].
Qed.

(** The lines the scan reads are the prepared lines of the text. *)
Lemma scanned_lines_prepared text :
  scanned_lines text = map prepared_line (split_nl text).
Proof. unfold scanned_lines. now rewrite split_sub_bold, map_map. Qed.

End BoldLines.
Import BoldLines.

(** ** More on the list scan *)

Module ScanMore.
Import Re LLMHelper.

Lemma split_nl_app_nl a b : split_nl (a ++ NL :: b) = split_nl a ++ split_nl b.
Proof.
  induction a as [|c a IH]; [reflexivity|]. cbn [app split_nl].
  rewrite IH. destruct (c =? NL); [reflexivity|].
  pose proof (split_nl_not_nil a).
  destruct (split_nl a); [congruence | reflexivity].
Qed.

(** *** Blank lines *)

Lemma lstrip_nil s : lstrip s = [] -> forallb isspace s = true.
Proof.
  induction s as [|c s IH]; [reflexivity|]. simpl.
  destruct (isspace c); [exact IH | discriminate].
Qed.

Lemma forallb_rev {A} (f : A -> bool) l : forallb f (rev l) = forallb f l.
Proof.
  induction l as [|x l IH]; [reflexivity|].
  simpl. rewrite forallb_app, IH. simpl. rewrite andb_true_r. apply andb_comm.
Qed.

Lemma blank_all_space l : is_blank l = true -> forallb isspace l = true.
Proof.
  unfold is_blank. destruct (strip l) eqn:E; [|discriminate]. intros _.
  unfold strip, rstrip in E.
  assert (E1 : lstrip (rev (lstrip l)) = []).
  { rewrite <- (rev_involutive (lstrip (rev (lstrip l)))), E. reflexivity. }
  apply lstrip_nil in E1. rewrite forallb_rev in E1.
  pose proof (lstrip_head l) as Hh.
  destruct (lstrip l) as [|c r] eqn:E2; [now apply lstrip_nil|].
  simpl in E1. rewrite Hh in E1. discriminate.
Qed.

Lemma space_no_bold l : forallb isspace l = true -> has_bold_span l = false.
Proof.
  induction l as [|x l IH]; [reflexivity|]. simpl. intros H.
  apply andb_prop in H as [Hx Hl]. rewrite (IH Hl), orb_false_r.
  destruct (x =? 42) eqn:E; [|reflexivity].
  apply N.eqb_eq in E. subst x. discriminate.
Qed.

Lemma space_no_heading l : forallb isspace l = true -> is_heading l = false.
Proof.
  destruct l as [|x l]; [reflexivity|]. simpl. intros H.
  apply andb_prop in H as [Hx _]. unfold is_heading.
  cbn. destruct (x =? 35) eqn:E; [|reflexivity].
  apply N.eqb_eq in E. subst x. discriminate.
Qed.

Lemma heading_line_other l : is_heading l = false -> heading_line l = l.
Proof.
  unfold is_heading. intros H.
  apply orb_false_iff in H as [H H1]. apply orb_false_iff in H as [H3 H2].
  unfold heading_line, h1_line, h2_line, h3_line, hline.
  now rewrite H3, H2, H1.
Qed.

(** A blank line goes unchanged through the substitutions. *)
Lemma prepared_blank l : is_blank l = true -> prepared_line l = l.
Proof.
  intros H. apply blank_all_space in H. unfold prepared_line, sub_bold.
  rewrite (bold_no_span _ _ (space_no_bold _ H)).
  apply heading_line_other, space_no_heading, H.
Qed.

(** *** The scan from any state *)

Lemma scan_line_prefix fl il l :
  scan_line (fl, il) l =
  (fl ++ fst (scan_line ([], il) l), snd (scan_line ([], il) l)).
Proof.
  destruct (is_bullet l) eqn:B.
  - rewrite !(scan_line_bullet _ _ _ B). cbn [fst snd].
    destruct il; now rewrite <- ?app_assoc.
  - rewrite !(scan_line_other _ _ _ B). cbn [fst snd].
    destruct il; now rewrite <- ?app_assoc.
Qed.

Lemma scan_prefix ls : forall fl il,
  scan ls (fl, il) =
  (fl ++ fst (scan ls ([], il)), snd (scan ls ([], il))).
Proof.
  induction ls as [|l ls IH]; intros fl il.
  - simpl. now rewrite app_nil_r.
  - rewrite !scan_cons, (scan_line_prefix fl il l).
    destruct (scan_line ([], il) l) as [out il'] eqn:E. cbn [fst snd].
    rewrite (IH (fl ++ out) il'), (IH out il'). cbn [fst snd].
    now rewrite app_assoc.
Qed.

Lemma close_list_prefix fl out il :
  close_list (fl ++ out, il) = fl ++ close_list (out, il).
Proof. unfold close_list. destruct il; now rewrite <- ?app_assoc. Qed.

(** A blank line leaves the scan where the end of the text would. *)
Lemma scan_line_blank st l :
  is_blank l = true -> scan_line st l = (close_list st, false).
Proof.
  destruct st as [fl il]. intros H.
  rewrite (scan_line_other _ _ _ (blank_not_bullet _ H)), H.
  unfold close_list. now rewrite app_nil_r.
Qed.

Lemma close_list_closed fl : close_list (fl, false) = fl.
Proof. reflexivity. Qed.

Lemma close_list_idem st : close_list (close_list st, false) = close_list st.
Proof. reflexivity. Qed.

(** *** What the output lines are *)

Lemma block_not_marker l : is_marker (block l) = false.
Proof. unfold block. now destruct (is_bullet l). Qed.

Lemma block_truthy l : truthy (block l) = true.
Proof. unfold block. now destruct (is_bullet l). Qed.

(** One step of the scan, in terms of [block]: a marker when the list opens
    or closes, then the block of the line unless it is blank. *)
Lemma scan_line_block fl il l :
  scan_line (fl, il) l =
  (fl ++ (if is_bullet l
          then (if il then [] else [UL_OPEN])
          else (if il then [UL_CLOSE] else []))
      ++ (if is_blank l then [] else [block l]),
   is_bullet l).
Proof.
  unfold block. destruct (is_bullet l) eqn:B.
  - rewrite (scan_line_bullet _ _ _ B).
    assert (Hb : is_blank l = false).
    { destruct (is_blank l) eqn:K; [|reflexivity].
      apply blank_not_bullet in K. congruence. }
    rewrite Hb. destruct il; now rewrite <- ?app_assoc.
  - rewrite (scan_line_other _ _ _ B). destruct il; now rewrite <- ?app_assoc.
Qed.

Lemma plain_lines_app a b : plain_lines (a ++ b) = plain_lines a ++ plain_lines b.
Proof. apply filter_app. Qed.

Lemma scan_blocks ls : forall fl il,
  plain_lines (fst (scan ls (fl, il))) =
  plain_lines fl ++ map block (filter (fun l => negb (is_blank l)) ls).
Proof.
  induction ls as [|l ls IH]; intros fl il.
  - simpl. now rewrite app_nil_r.
  - rewrite scan_cons, scan_line_block, IH, !plain_lines_app, <- !app_assoc.
    f_equal. cbn [filter].
    assert (E : plain_lines (if is_bullet l
                             then if il then [] else [UL_OPEN]
                             else if il then [UL_CLOSE] else []) = [])
      by (destruct (is_bullet l), il; reflexivity).
    rewrite E. cbn [app].
    destruct (is_blank l); cbn [negb map app]; [reflexivity|].
    unfold plain_lines. cbn [filter]. now rewrite block_not_marker.
Qed.

Lemma close_list_blocks st : plain_lines (close_list st) = plain_lines (fst st).
Proof.
  destruct st as [fl [|]]; [|reflexivity].
  cbn [close_list fst]. rewrite plain_lines_app. cbn. apply app_nil_r.
Qed.

(** Every output line holds something. *)
Lemma scan_truthy ls : forall fl il,
  forallb truthy fl = true -> forallb truthy (fst (scan ls (fl, il))) = true.
Proof.
  induction ls as [|l ls IH]; intros fl il H; [exact H|].
  rewrite scan_cons, scan_line_block. apply IH.
  rewrite !forallb_app, H.
  destruct (is_bullet l), il, (is_blank l); cbn [forallb andb];
    rewrite ?block_truthy; reflexivity.
Qed.

Lemma close_list_truthy st :
  forallb truthy (fst st) = true -> forallb truthy (close_list st) = true.
Proof.
  destruct st as [fl [|]]; cbn [close_list fst]; auto.
  intros H. now rewrite forallb_app, H.
Qed.

Lemma join_nl_nil_inv ls : forallb truthy ls = true -> join_nl ls = [] -> ls = [].
Proof.
  destruct ls as [|l ls]; [reflexivity|]. simpl. intros H E.
  apply andb_prop in H as [Hl _]. destruct l; [discriminate|].
  destruct ls; discriminate.
Qed.

Lemma join_nl_app a b :
  a <> [] -> b <> [] -> join_nl (a ++ b) = join_nl a ++ NL :: join_nl b.
Proof.
  induction a as [|l a IH]; [congruence|]. intros _ Hb.
  destruct a as [|l' a].
  - cbn [app]. now rewrite join_nl_cons.
  - cbn [app]. rewrite !join_nl_cons by discriminate.
    cbn [app] in IH. rewrite IH by (auto; discriminate).
    rewrite (join_nl_cons l (l' :: a)) by discriminate.
    now rewrite <- app_assoc.
Qed.

(** Joining two lists of non-empty lines is stacking the two outputs. *)
Lemma join_nl_stack a b :
  forallb truthy a = true -> forallb truthy b = true ->
  join_nl (a ++ b) = stack (join_nl a) (join_nl b).
Proof.
  intros Ha Hb. destruct a as [|l a]; [reflexivity|].
  destruct b as [|m b].
  - rewrite app_nil_r. unfold stack. change (join_nl []) with (@nil N).
    now destruct (join_nl (l :: a)).
  - rewrite join_nl_app by discriminate. unfold stack.
    destruct (join_nl (l :: a)) eqn:Ea.
    + apply (join_nl_nil_inv _ Ha) in Ea. discriminate.
    + destruct (join_nl (m :: b)) eqn:Eb; [|reflexivity].
      apply (join_nl_nil_inv _ Hb) in Eb. discriminate.
Qed.

(** *** Lists in a row *)

Lemma lists_in_a_row_snoc n :
  lists_in_a_row n ++ [ListOpen; ListClose] = lists_in_a_row (S n).
Proof.
  induction n as [|n IH]; [reflexivity|].
  cbn [lists_in_a_row app] in *. now rewrite IH.
Qed.

Lemma scan_line_rows fl (il : bool) l n :
  markers fl = lists_in_a_row n ++ (if il then [ListOpen] else []) ->
  exists n',
    markers (fst (scan_line (fl, il) l)) =
    lists_in_a_row n' ++ (if snd (scan_line (fl, il) l) then [ListOpen] else []).
Proof.
  intros H. rewrite scan_line_block. cbn [fst snd].
  assert (Hb : markers (if is_blank l then [] else [block l]) = []).
  { destruct (is_blank l); [reflexivity|].
    unfold block. now destruct (is_bullet l). }
  rewrite !markers_app, Hb, H.
  destruct (is_bullet l), il.
  - exists n. change (markers []) with (@nil marker). now rewrite !app_nil_r.
  - exists n. change (markers [UL_OPEN]) with [ListOpen]. now rewrite !app_nil_r.
  - exists (S n). change (markers [UL_CLOSE]) with [ListClose].
    rewrite !app_nil_r, <- lists_in_a_row_snoc, <- app_assoc. reflexivity.
  - exists n. change (markers []) with (@nil marker). now rewrite !app_nil_r.
Qed.

Lemma scan_rows ls : forall fl (il : bool) n,
  markers fl = lists_in_a_row n ++ (if il then [ListOpen] else []) ->
  exists n',
    markers (fst (scan ls (fl, il))) =
    lists_in_a_row n' ++ (if snd (scan ls (fl, il)) then [ListOpen] else []).
Proof.
  induction ls as [|l ls IH]; intros fl il n H.
  - now exists n.
  - rewrite scan_cons. destruct (scan_line_rows _ _ l _ H) as [n' H'].
    destruct (scan_line (fl, il) l) as [fl' il']. now apply (IH _ _ n').
Qed.

Lemma close_list_rows (st : scan_state) n :
  markers (fst st) = lists_in_a_row n ++ (if snd st then [ListOpen] else []) ->
  exists n', markers (close_list st) = lists_in_a_row n'.
Proof.
  destruct st as [fl [|]]; cbn [fst snd close_list]; intros H.
  - exists (S n). rewrite markers_app, H, <- app_assoc.
    apply lists_in_a_row_snoc.
  - exists n. now rewrite H, app_nil_r.
Qed.

(** *** A run of bullet lines *)

Lemma scan_bullets bs : forall fl,
  forallb is_bullet bs = true ->
  snd (scan bs (fl, true)) = true
  /\ fst (scan bs (fl, true)) = fl ++ map list_item bs.
Proof.
  induction bs as [|b bs IH]; intros fl H.
  - simpl. now rewrite app_nil_r.
  - simpl in H. apply andb_prop in H as [Hb Hbs].
    rewrite scan_cons, (scan_line_bullet _ _ _ Hb).
    destruct (IH (fl ++ [list_item b]) Hbs) as [E1 E2].
    split; [exact E1|]. rewrite E2. cbn [map]. now rewrite <- app_assoc.
Qed.

End ScanMore.
Import ScanMore.

(** ** The formatter as a whole *)

Module FormatterMore.
Import Re LLMHelper.

Lemma format_lines_prepared text :
  format_lines text =
  close_list (scan (map prepared_line (split_nl text)) ([], false)).
Proof. unfold format_lines. now rewrite scanned_lines_prepared. Qed.

Lemma format_is_join text :
  format_markdown_to_html text = join_nl (format_lines text).
Proof. apply format_scanned. Qed.

Lemma format_lines_truthy text : forallb truthy (format_lines text) = true.
Proof.
  unfold format_lines. apply close_list_truthy.
  destruct (scan (scanned_lines text) ([], false)) as [fl il] eqn:E.
  change fl with (fst (fl, il)). rewrite <- E. now apply scan_truthy.
Qed.

Lemma format_lines_blocks text :
  plain_lines (format_lines text) =
  map block (filter (fun l => negb (is_blank l))
                    (map prepared_line (split_nl text))).
Proof.
  rewrite format_lines_prepared, close_list_blocks.
  destruct (scan _ _) as [fl il] eqn:E.
  change (fst (fl, il)) with (fst (fl, il)). rewrite <- E.
  apply (scan_blocks _ [] false).
Qed.

(** The emphasis substitution leaves white space only when it left the line
    as it was. *)
Lemma bold_space_fixed : forall n l,
  (length l <= n)%nat ->
  forallb isspace (sub_bold l) = true -> sub_bold l = l.
Proof.
  unfold sub_bold. induction n as [|n IH]; intros l L H.
  - destruct l; [reflexivity | simpl in L; lia].
  - unfold sub in *. rewrite sub_from_eq in *.
    destruct (match_here bold_re true l) as [[g [b' rest]]|] eqn:M.
    + destruct (bold_match_shape _ _ _ _ _ M) as [E _].
      assert (Lr : (length rest <? length l)%nat = true).
      { apply Nat.ltb_lt. rewrite E, !length_app. simpl. lia. }
      rewrite Lr in H. discriminate.
    + destruct l as [|x l]; [reflexivity|].
      rewrite bold_from_bol in *. cbn [forallb] in H.
      apply andb_prop in H as [_ H]. f_equal.
      apply IH; [simpl in L; lia | exact H].
Qed.

Lemma space_blank l : forallb isspace l = true -> is_blank l = true.
Proof.
  intros H. unfold is_blank, strip.
  assert (E : lstrip l = []).
  { induction l as [|c l IH]; [reflexivity|]. simpl in *.
    apply andb_prop in H as [Hc Hl]. rewrite Hc. now apply IH. }
  now rewrite E.
Qed.

(** A line is blank once prepared only if it was blank. *)
Lemma prepared_blank_inv l : is_blank (prepared_line l) = true -> is_blank l = true.
Proof.
  unfold prepared_line. intros H.
  destruct (is_heading (sub_bold l)) eqn:Hh.
  - apply Formatter.heading_line_markup, Formatter.heading_markup_scan in Hh.
    destruct Hh. congruence.
  - rewrite (heading_line_other _ Hh) in H.
    apply blank_all_space in H.
    rewrite (bold_space_fixed (length l) l (le_n _) H) in H.
    now apply space_blank.
Qed.

(** X1: each heading substitution works line by line: a line that starts
    with the prefix becomes the heading block of the rest of the line, and
    every other line, as well as the number of lines, is left as it is. *)
Theorem heading_substitutions_line_by_line text :
  sub_h3 text = join_nl (map h3_line (split_nl text))
  /\ sub_h2 text = join_nl (map h2_line (split_nl text))
  /\ sub_h1 text = join_nl (map h1_line (split_nl text)).
Proof.
  split; [|split].
  - apply sub_h3_lines.
  - apply sub_h2_lines.
  - apply sub_h1_lines.
Qed.

(** X2: the emphasis substitution works line by line: no span reaches over
    a newline, so the result is the substitution of every line, and its
    lines are the substituted lines of the text. *)
Theorem emphasis_line_by_line text :
  sub_bold text = join_nl (map sub_bold (split_nl text))
  /\ split_nl (sub_bold text) = map sub_bold (split_nl text).
Proof. split; [apply sub_bold_lines | apply split_sub_bold]. Qed.

(** X3: the output is empty exactly when every line of the text is blank. *)
Theorem empty_output_iff_blank text :
  format_markdown_to_html text = [] <->
  forallb is_blank (split_nl text) = true.
Proof.
  rewrite format_is_join. split.
  - intros H. apply (join_nl_nil_inv _ (format_lines_truthy text)) in H.
    pose proof (format_lines_blocks text) as B. rewrite H in B.
    symmetry in B. apply map_eq_nil in B.
    apply forallb_forall. intros l Hl. apply prepared_blank_inv.
    destruct (is_blank (prepared_line l)) eqn:K; [reflexivity|].
    assert (Hin : In (prepared_line l)
                     (filter (fun l => negb (is_blank l))
                             (map prepared_line (split_nl text)))).
    { apply filter_In. split; [now apply in_map | now rewrite K]. }
    rewrite B in Hin. destruct Hin.
  - intros H. rewrite format_lines_prepared.
    assert (E : map prepared_line (split_nl text) = split_nl text).
    { rewrite <- (map_id (split_nl text)) at 2. apply map_ext_in.
      intros l Hl. apply prepared_blank.
      rewrite forallb_forall in H. now apply H. }
    rewrite E, scan_no_bullets.
    + cbn [close_list].
      assert (F : filter (fun l => negb (is_blank l)) (split_nl text) = []).
      { clear E. induction (split_nl text) as [|l ls IH]; [reflexivity|].
        simpl in *. apply andb_prop in H as [Hl Hls].
        rewrite Hl. now apply IH. }
      now rewrite F.
    + apply forallb_forall. intros l Hl. rewrite forallb_forall in H.
      now rewrite (blank_not_bullet _ (H l Hl)).
Qed.

Lemma empty_output_iff_blank_witness :
  format_markdown_to_html (py "   " ++ NL :: 9 :: py " ") = [].
Proof.
  exact (proj2 (empty_output_iff_blank (py "   " ++ NL :: 9 :: py " ")) eq_refl).
Defined.

(** X4: a newline at the end of the text does not change the output. *)
Theorem trailing_newline_ignored text :
  format_markdown_to_html (text ++ [NL]) = format_markdown_to_html text.
Proof.
  rewrite !format_is_join, !format_lines_prepared. f_equal.
  rewrite split_nl_app_nl, map_app, scan_app.
  change (map prepared_line (split_nl [])) with [@nil N].
  cbn [scan fold_left]. now rewrite scan_line_blank.
Qed.

Lemma format_lines_app a b :
  format_lines (a ++ NL :: NL :: b) = format_lines a ++ format_lines b.
Proof.
  rewrite !format_lines_prepared.
  rewrite split_nl_app_nl. change (split_nl (NL :: b)) with ([] :: split_nl b).
  rewrite map_app, scan_app. cbn [map].
  change (prepared_line []) with (@nil N).
  rewrite scan_cons, scan_line_blank by reflexivity.
  rewrite scan_prefix.
  destruct (scan (map prepared_line (split_nl b)) ([], false)) as [fl il].
  cbn [fst snd]. apply close_list_prefix.
Qed.

(** X5: two texts with an empty line between them are formatted one
    independently of the other: the output is the two outputs, joined by a
    newline unless one of them is empty. *)
Theorem blank_line_separates a b :
  format_markdown_to_html (a ++ NL :: NL :: b) =
  stack (format_markdown_to_html a) (format_markdown_to_html b).
Proof.
  rewrite !format_is_join, format_lines_app.
  apply join_nl_stack; apply format_lines_truthy.
Qed.

(** X6: lists are never nested: the list markers of every output are a
    number of open, close pairs, one after the other. *)
Theorem lists_never_nested text :
  exists n,
    markers (split_nl (format_markdown_to_html text)) = lists_in_a_row n.
Proof.
  rewrite format_scanned.
  assert (I : scan_inv (scan (scanned_lines text) ([], false))).
  { apply scan_inv_all; [apply scanned_lines_no_nl | repeat split]. }
  apply close_list_balanced in I as (Hn & _ & _).
  rewrite (markers_split_join _ Hn).
  destruct (scan_rows (scanned_lines text) [] false 0 eq_refl) as [n H].
  destruct (scan (scanned_lines text) ([], false)) as [fl il] eqn:E.
  apply (close_list_rows (fl, il) n H).
Qed.

(** X7: every line that is not blank once the substitutions are done gives
    exactly one block, a list item for a bullet line and a paragraph for any
    other, in the order of the lines; all other output lines are list
    markers. *)
Theorem one_block_per_line text :
  format_markdown_to_html text = join_nl (format_lines text)
  /\ plain_lines (format_lines text) =
     map block (filter (fun l => negb (is_blank l))
                       (map prepared_line (split_nl text))).
Proof. split; [apply format_is_join | apply format_lines_blocks]. Qed.

(** X8: in the list scan a run of bullet lines makes one list block with
    one item for each line, and a following line that is neither a bullet
    nor blank closes the block and becomes a paragraph. *)
Theorem bullet_run_is_one_list bs c :
  bs <> [] ->
  forallb is_bullet bs = true -> forallb no_nl bs = true ->
  is_bullet c = false -> is_blank c = false -> no_nl c = true ->
  list_pass (join_nl bs) = join_nl (UL_OPEN :: map list_item bs ++ [UL_CLOSE])
  /\ list_pass (join_nl (bs ++ [c])) =
     join_nl (UL_OPEN :: map list_item bs ++ [UL_CLOSE; paragraph c]).
Proof.
  intros Hne Hb Hn Hc Hk Hcn.
  assert (S : forall rest st,
            scan (bs ++ rest) ([], false) = st ->
            st = scan rest (UL_OPEN :: map list_item bs, true)).
  { intros rest st <-. rewrite scan_app. f_equal.
    destruct bs as [|b bs']; [congruence|].
    simpl in Hb. apply andb_prop in Hb as [Hb1 Hb2].
    rewrite scan_cons, (scan_line_bullet _ _ _ Hb1).
    destruct (scan_bullets bs' ([UL_OPEN] ++ [list_item b]) Hb2) as [E1 E2].
    destruct (scan bs' _) as [fl il]. cbn [fst snd] in *. now subst. }
  unfold list_pass. split.
  - rewrite split_join_nl by assumption.
    rewrite <- (app_nil_r bs) at 1. now rewrite (S [] _ eq_refl).
  - rewrite split_join_nl.
    + rewrite (S [c] _ eq_refl), scan_cons, (scan_line_other _ _ _ Hc), Hk.
      cbn [scan fold_left close_list app]. now rewrite <- app_assoc.
    + destruct bs; [congruence | discriminate].
    + rewrite forallb_app, Hn. cbn. now rewrite Hcn.
Qed.

Lemma bullet_run_is_one_list_witness :
  list_pass (py "- a" ++ NL :: py "  - b" ++ NL :: py "c") =
  join_nl [UL_OPEN; list_item (py "- a"); list_item (py "  - b"); UL_CLOSE;
           paragraph (py "c")].
Proof.
  exact (proj2 (bullet_run_is_one_list [py "- a"; py "  - b"] (py "c")
                  ltac:(discriminate) eq_refl eq_refl eq_refl eq_refl eq_refl)).
Defined.

End FormatterMore.

(** ** The transcript, the model and the service *)

Module TranscriptMore.
Import LLMHelper DataChatBotDemo.

Lemma build_is_concat h :
  build_chat_history_html h = concat (map render_entry h).
Proof. unfold build_chat_history_html. now rewrite Transcript.build_from. Qed.

Lemma add_skip self sender message :
  strip message = [] -> _add_to_chat self sender message = self.
Proof. intros H. unfold _add_to_chat. now rewrite H. Qed.

Lemma add_keep self sender message :
  strip message <> [] ->
  chat_history (_add_to_chat self sender message)
  = chat_history self ++ [(sender, strip message)]
  /\ chat_area (_add_to_chat self sender message)
     = build_chat_history_html (chat_history self ++ [(sender, strip message)]).
Proof.
  intros H. unfold _add_to_chat.
  destruct (strip message) eqn:E; [congruence | split; reflexivity].
Qed.

(** X9: rendering is compositional: the markup of two transcripts one after
    the other is the two markups one after the other; so the full re-render
    of [_add_to_chat] is the markup of the transcript before, followed by
    the markup of the new entry. *)
Theorem render_is_compositional :
  (forall h1 h2,
     build_chat_history_html (h1 ++ h2)
     = build_chat_history_html h1 ++ build_chat_history_html h2)
  /\ (forall self sender message,
        strip message <> [] ->
        chat_area (_add_to_chat self sender message)
        = build_chat_history_html (chat_history self)
          ++ render_entry (sender, strip message)).
Proof.
  split.
  - intros h1 h2. now rewrite !build_is_concat, map_app, concat_app.
  - intros self sender message H.
    rewrite (proj2 (add_keep self sender message H)), !build_is_concat.
    rewrite map_app, concat_app. cbn [map concat]. now rewrite app_nil_r.
Qed.

Lemma render_is_compositional_witness :
  chat_area (_add_to_chat init (py "AI") (py " - x ")) =
  build_chat_history_html [] ++ render_entry (py "AI", py "- x").
Proof.
  refine (proj2 render_is_compositional init (py "AI") (py " - x ") _).
  vm_compute. discriminate.
Defined.

Lemma display_after_add self sender message :
  chat_area self = display_of (chat_history self) ->
  chat_area (_add_to_chat self sender message)
  = display_of (chat_history (_add_to_chat self sender message)).
Proof.
  intros H. destruct (strip message) as [|c m] eqn:E.
  - now rewrite (add_skip _ _ _ E).
  - assert (N : strip message <> []) by (rewrite E; discriminate).
    destruct (add_keep self sender message N) as [E1 E2].
    rewrite E1, E2. unfold display_of.
    now destruct (chat_history self).
Qed.

(** X10: the chat area always shows the transcript: after any session of
    appends and clears it holds the welcome markup when the transcript is
    empty and the rendering of the transcript otherwise. *)
Theorem display_in_sync ops :
  chat_area (run ops init) = display_of (chat_history (run ops init)).
Proof.
  unfold run.
  assert (H : chat_area init = display_of (chat_history init)) by reflexivity.
  revert H. generalize init.
  induction ops as [|o ops IH]; intros s H; [exact H|].
  cbn [fold_left]. apply IH. destruct o; cbn [step].
  - now apply display_after_add.
  - reflexivity.
Qed.

(** X11: a batch of appends adds, in their order, the entries whose message
    does not strip to the empty string, each with its message stripped and
    its sender unchanged; the entries already there stay. *)
Theorem appends_keep_order appends : forall self,
  get_chat_history (add_all appends self) = get_chat_history self ++ kept appends.
Proof.
  unfold add_all, kept, get_chat_history.
  induction appends as [|[sender message] appends IH]; intros self.
  - simpl. now rewrite app_nil_r.
  - cbn [fold_left fst snd filter]. rewrite IH.
    destruct (strip message) as [|c m] eqn:E.
    + now rewrite (add_skip _ _ _ E).
    + assert (N : strip message <> []) by (rewrite E; discriminate).
      rewrite (proj1 (add_keep self sender message N)), E.
      cbn [truthy map fst snd]. rewrite E. now rewrite <- app_assoc.
Qed.

(** *** The model *)

Lemma set_model_snd self name :
  snd (set_model self name)
  = if is_available name then {| model := name |} else self.
Proof.
  unfold set_model, is_available.
  now destruct (str_in name get_available_models).
Qed.

Lemma last_cons (l : list str) x d : last (x :: l) d = last l x.
Proof.
  revert x d. induction l as [|y l IH]; intros x d; [reflexivity|].
  change (last (y :: l) d = last (y :: l) x). now rewrite !IH.
Qed.

(** X12: over a series of [set_model] calls the helper holds the last name
    that was accepted, or the model it started with when none was; calls
    that raise change nothing.  So a helper that starts with an available
    model, as the default one is, never holds an unavailable one. *)
Theorem set_models_last_accepted names : forall self,
  model (set_models names self) = last (filter is_available names) (model self)
  /\ (In (model self) get_available_models ->
      In (model (set_models names self)) get_available_models).
Proof.
  unfold set_models.
  induction names as [|name names IH]; intros self; [split; auto|].
  cbn [fold_left filter]. rewrite set_model_snd.
  destruct (is_available name) eqn:A.
  - destruct (IH {| model := name |}) as [E1 E2]. cbn [model] in *. split.
    + rewrite E1. now rewrite last_cons.
    + intros _. apply E2. now apply Transcript.str_in_In.
  - apply IH.
Qed.

Lemma set_models_last_accepted_witness :
  In (model (set_models [py "gpt-5"; py "gpt-4o"; py "x"] {| model := MODEL |}))
     get_available_models.
Proof.
  apply (proj2 (set_models_last_accepted
                  [py "gpt-5"; py "gpt-4o"; py "x"] {| model := MODEL |})).
  left. reflexivity.
Defined.

End TranscriptMore.

Module ServiceMore.
Import LLMHelper DataChatBotDemo Service.

(** X13: a helper can be built exactly when [validate_api_key] holds, that
    is when the key is set and not empty; otherwise the constructor raises
    the [ValueError] of [_setup_api]. *)
Theorem helper_needs_key key name :
  __init__ key name =
    (if validate_api_key key
     then inl {| model := name |}
     else inr (ValueError KEY_NOT_SET))
  /\ (validate_api_key key = true <-> exists c k, key = Some (c :: k)).
Proof.
  split.
  - unfold __init__, _setup_api, validate_api_key.
    destruct key as [[|c k]|]; reflexivity.
  - unfold validate_api_key. split.
    + destruct key as [[|c k]|]; try discriminate. intros _. now exists c, k.
    + now intros (c & k & ->).
Qed.

Lemma helper_needs_key_witness :
  validate_api_key (Some (py "sk-1")) = true
  /\ __init__ (Some []) MODEL = inr (ValueError KEY_NOT_SET).
Proof.
  split.
  - apply (proj2 (helper_needs_key (Some (py "sk-1")) MODEL)).
    now exists 115, (py "k-1").
  - exact (proj1 (helper_needs_key (Some []) MODEL)).
Defined.

(** X14: an answer of [ask_llm] is the stripped content the service gave,
    so it is its own strip; a failure of the service is raised again with
    the detail after the fixed prefix. *)
Theorem ask_llm_strips_or_wraps create self data question :
  match ask_llm create self data question with
  | inl answer =>
      strip answer = answer
      /\ exists content,
           create (model self) (messages data question) = inl content
           /\ answer = strip content
  | inr e =>
      exists detail,
        create (model self) (messages data question) = inr detail
        /\ str_of e = API_ERROR ++ detail
  end.
Proof.
  unfold ask_llm.
  destruct (create (model self) (messages data question)) as [content|detail].
  - split; [apply strip_idem | now exists content].
  - now exists detail.
Qed.

End ServiceMore.

Module WindowMore.
Import LLMHelper Service.

Lemma strip_apology x : strip (Window.APOLOGY ++ x) <> [].
Proof.
  intros E.
  assert (H : is_blank (Window.APOLOGY ++ x) = true)
    by (unfold is_blank; now rewrite E).
  apply blank_all_space in H. discriminate.
Qed.

Section Send.

Variable create : str -> list (str * str) -> str + str.
Variable processEvents : Window.t -> Window.t.

Let _on_send := Window._on_send create processEvents.

Lemma on_send_no_data self :
  strip (Window.data_edit self) = [] ->
  _on_send self =
  Window.status_setText
    (Window.set_data_text_field self []) Window.NO_DATA.
Proof.
  intros H. unfold _on_send, Window._on_send. rewrite H. reflexivity.
Qed.

Lemma on_send_no_question self :
  strip (Window.data_edit self) <> [] ->
  strip (Window.chat_input self) = [] ->
  _on_send self =
  Window.status_setText
    (Window.set_data_text_field self (strip (Window.data_edit self)))
    Window.NO_QUESTION.
Proof.
  intros Hd Hq. unfold _on_send, Window._on_send. rewrite Hq.
  destruct (strip (Window.data_edit self)); [congruence | reflexivity].
Qed.

Lemma on_send_valid self :
  strip (Window.data_edit self) <> [] ->
  strip (Window.chat_input self) <> [] ->
  _on_send self =
  let w := processEvents (asked self) in
  match ask_llm create
          (DataChatBotDemo.llm_helper (Window.widget w))
          (DataChatBotDemo.data_text (Window.widget w))
          (strip (Window.chat_input self)) with
  | inl ai_response =>
      Window.status_setText
        (Window._add_to_chat w (py "AI") ai_response) Window.RECEIVED
  | inr ex =>
      Window.status_setText
        (Window._add_to_chat w (py "AI") (Window.APOLOGY ++ str_of ex))
        (Window.ERROR_STATUS ++ str_of ex)
  end.
Proof.
  intros Hd Hq. unfold _on_send, Window._on_send, asked.
  destruct (strip (Window.data_edit self)) eqn:Ed; [congruence|].
  destruct (strip (Window.chat_input self)) eqn:Eq; [congruence|].
  reflexivity.
Qed.

End Send.

(** X15: with no data, or with data and no question (after stripping),
    [_on_send] adds nothing to the transcript and leaves the chat area and
    both inputs as they are; it does not ask the service nor run pending
    events; the status names the data first, the question otherwise. *)
Theorem send_rejects_empty_input create processEvents self :
  strip (Window.data_edit self) = [] \/ strip (Window.chat_input self) = [] ->
  let r := Window._on_send create processEvents self in
  DataChatBotDemo.chat_history (Window.widget r)
    = DataChatBotDemo.chat_history (Window.widget self)
  /\ DataChatBotDemo.chat_area (Window.widget r)
     = DataChatBotDemo.chat_area (Window.widget self)
  /\ Window.chat_input r = Window.chat_input self
  /\ Window.data_edit r = Window.data_edit self
  /\ DataChatBotDemo.status (Window.widget r)
     = (if truthy (strip (Window.data_edit self))
        then Window.NO_QUESTION else Window.NO_DATA)
  /\ forall create' processEvents',
       Window._on_send create' processEvents' self = r.
Proof.
  intros H. cbv zeta.
  destruct (strip (Window.data_edit self)) as [|c d] eqn:Ed.
  - rewrite !on_send_no_data by exact Ed. repeat split.
    intros create' pe'. now rewrite on_send_no_data.
  - destruct H as [H|H]; [discriminate|].
    assert (N : strip (Window.data_edit self) <> [])
      by (rewrite Ed; discriminate).
    rewrite !on_send_no_question by assumption. repeat split.
    intros create' pe'. now rewrite on_send_no_question.
Qed.

Lemma send_rejects_empty_input_witness :
  DataChatBotDemo.chat_history
    (Window.widget
       (Window._on_send (fun _ _ => inl (py "yes")) (fun w => w)
          {| Window.widget := DataChatBotDemo.init;
             Window.chat_input := py "why?";
             Window.data_edit := py "  " |})) = [].
Proof.
  exact (proj1 (send_rejects_empty_input (fun _ _ => inl (py "yes")) (fun w => w)
                  {| Window.widget := DataChatBotDemo.init;
                     Window.chat_input := py "why?";
                     Window.data_edit := py "  " |}
                  (or_introl eq_refl))).
Defined.

Lemma window_add_history w sender message :
  DataChatBotDemo.chat_history
    (Window.widget (Window._add_to_chat w sender message))
  = DataChatBotDemo.chat_history (Window.widget w) ++ kept [(sender, message)].
Proof.
  cbn [Window._add_to_chat Window.widget]. unfold kept. cbn [filter snd].
  destruct (strip message) as [|c m] eqn:E.
  - rewrite (TranscriptMore.add_skip _ _ _ E). cbn. now rewrite app_nil_r.
  - assert (N : strip message <> []) by (rewrite E; discriminate).
    rewrite (proj1 (TranscriptMore.add_keep _ sender message N)).
    cbn [truthy map fst snd]. now rewrite E.
Qed.

Lemma kept_one sender message :
  kept [(sender, message)]
  = if truthy (strip message) then [(sender, strip message)] else [].
Proof. unfold kept. cbn [filter snd]. now destruct (truthy (strip message)). Qed.

Lemma kept_stripped sender message :
  strip message <> [] -> kept [(sender, strip message)] = [(sender, strip message)].
Proof.
  intros H. rewrite kept_one, strip_idem.
  destruct (strip message); [congruence | reflexivity].
Qed.

(** X16: with data and a question, [_on_send] first appends the stripped
    question as a ["You"] entry and clears the input; after the pending
    events it asks the service once, for the helper's model and the stored
    data, and appends to the transcript of that moment: the stripped answer
    as an ["AI"] entry, or nothing when the answer strips to the empty
    string, and on a failure exactly one ["AI"] entry that holds the
    apology followed by the error. *)
Theorem send_appends_question_then_answer create processEvents self :
  strip (Window.data_edit self) <> [] ->
  strip (Window.chat_input self) <> [] ->
  let question := strip (Window.chat_input self) in
  let w := processEvents (asked self) in
  let r := Window._on_send create processEvents self in
  DataChatBotDemo.chat_history (Window.widget (asked self))
    = DataChatBotDemo.chat_history (Window.widget self) ++ [(py "You", question)]
  /\ Window.chat_input (asked self) = []
  /\ match create (model (DataChatBotDemo.llm_helper (Window.widget w)))
                  (messages (DataChatBotDemo.data_text (Window.widget w)) question)
     with
     | inl content =>
         DataChatBotDemo.chat_history (Window.widget r)
         = DataChatBotDemo.chat_history (Window.widget w)
           ++ (if truthy (strip content) then [(py "AI", strip content)] else [])
         /\ DataChatBotDemo.status (Window.widget r) = Window.RECEIVED
     | inr detail =>
         DataChatBotDemo.chat_history (Window.widget r)
         = DataChatBotDemo.chat_history (Window.widget w)
           ++ [(py "AI", strip (Window.APOLOGY ++ API_ERROR ++ detail))]
         /\ strip (Window.APOLOGY ++ API_ERROR ++ detail) <> []
         /\ DataChatBotDemo.status (Window.widget r)
            = Window.ERROR_STATUS ++ API_ERROR ++ detail
     end.
Proof.
  intros Hd Hq. cbv zeta. split; [|split].
  - unfold asked. cbn [Window.status_setText Window.chat_input_clear
                       Window.widget DataChatBotDemo.chat_history].
    now rewrite window_add_history, (kept_stripped _ _ Hq).
  - reflexivity.
  - rewrite (on_send_valid _ _ _ Hd Hq). cbv zeta. unfold ask_llm.
    destruct (create _ _) as [content|detail].
    + cbn [Window.status_setText Window.widget DataChatBotDemo.chat_history
           DataChatBotDemo.status].
      rewrite window_add_history, kept_one, !strip_idem. now split.
    + cbn [Window.status_setText Window.widget DataChatBotDemo.chat_history
           DataChatBotDemo.status str_of].
      rewrite window_add_history, kept_one.
      pose proof (strip_apology (API_ERROR ++ detail)) as N.
      repeat split; auto.
      destruct (strip (Window.APOLOGY ++ API_ERROR ++ detail)); [congruence|].
      reflexivity.
Qed.

Lemma send_appends_question_then_answer_witness :
  DataChatBotDemo.chat_history
    (Window.widget
       (Window._on_send (fun _ _ => inl (py " 42 ")) (fun w => w)
          {| Window.widget := DataChatBotDemo.init;
             Window.chat_input := py " sum? ";
             Window.data_edit := py "40,2" |}))
  = [(py "You", py "sum?"); (py "AI", py "42")].
Proof.
  refine (proj1 (proj2 (proj2
            (send_appends_question_then_answer
               (fun _ _ => inl (py " 42 ")) (fun w => w)
               {| Window.widget := DataChatBotDemo.init;
                  Window.chat_input := py " sum? ";
                  Window.data_edit := py "40,2" |} _ _)))).
  - vm_compute. discriminate.
  - vm_compute. discriminate.
Defined.

Lemma history_inv_kept h e :
  history_inv h -> history_inv (h ++ kept [e]).
Proof.
  intros H. unfold kept. cbn [filter].
  destruct (truthy (strip (snd e))) eqn:E; cbn [map];
    [|now rewrite app_nil_r].
  apply Forall_app. split; [exact H|]. constructor; [|constructor].
  cbn [snd]. split; [now apply truthy_true | apply strip_idem].
Qed.

Lemma window_ok_add w sender message :
  window_ok w -> window_ok (Window._add_to_chat w sender message).
Proof.
  intros [H1 H2]. split.
  - rewrite window_add_history. now apply history_inv_kept.
  - cbn [Window._add_to_chat Window.widget].
    now apply TranscriptMore.display_after_add.
Qed.

(** X17: [_on_send] keeps the transcript well formed, whatever the service
    answers, as long as the pending events keep it so: every message stored
    is stripped and not empty, and the chat area shows the transcript. *)
Theorem send_keeps_window_ok create processEvents self :
  (forall w, window_ok w -> window_ok (processEvents w)) ->
  window_ok self ->
  window_ok (Window._on_send create processEvents self).
Proof.
  intros Hpe Hok.
  destruct (strip (Window.data_edit self)) as [|c d] eqn:Ed.
  - rewrite on_send_no_data by exact Ed. exact Hok.
  - assert (Nd : strip (Window.data_edit self) <> [])
      by (rewrite Ed; discriminate).
    destruct (strip (Window.chat_input self)) as [|c' q] eqn:Eq.
    + rewrite on_send_no_question by assumption. exact Hok.
    + assert (Nq : strip (Window.chat_input self) <> [])
        by (rewrite Eq; discriminate).
      rewrite (on_send_valid _ _ _ Nd Nq). cbv zeta.
      assert (Ha : window_ok (processEvents (asked self))).
      { apply Hpe. unfold asked.
        exact (window_ok_add
                 (Window.set_data_text_field self (strip (Window.data_edit self)))
                 (py "You") (strip (Window.chat_input self)) Hok). }
      destruct (ask_llm _ _ _ _) as [a|ex].
      * exact (window_ok_add _ (py "AI") a Ha).
      * exact (window_ok_add _ (py "AI") _ Ha).
Qed.

Lemma send_keeps_window_ok_witness :
  window_ok
    (Window._on_send (fun _ _ => inr (py "quota")) (fun w => w)
       {| Window.widget := DataChatBotDemo.init;
          Window.chat_input := py "why?";
          Window.data_edit := py "a,b" |}).
Proof.
  apply send_keeps_window_ok.
  - intros w H. exact H.
  - split; [constructor | reflexivity].
Defined.

End WindowMore.

(** ** C4: emphasis *)

Module Emphasis.
Import Re LLMHelper.

(** C4, at a pair of [**] with a newline between them: the two lines hold a
    [**X**] span, [X] being the text between the two [**], and nothing is
    replaced; the output holds no emphasis element. *)
Lemma span_over_newline_not_replaced :
  let X := py "a" ++ NL :: py "b" in
  let text := DSTAR ++ X ++ DSTAR in
  has_dstar X = false
  /\ sub_bold text = text
  /\ sub_bold text <> emphasis X
  /\ format_markdown_to_html text =
       paragraph (py "**a") ++ NL :: paragraph (py "b**").
Proof. vm_compute. repeat split. discriminate. Qed.

(** A character that does not open a span on its line is copied. *)
Lemma bold_copy_char x t :
  startswith (x :: t) DSTAR && closes (skipn 2 (x :: t)) = false ->
  sub_bold (x :: t) = x :: sub_bold t.
Proof.
  intros H. unfold sub_bold, sub. rewrite sub_from_none.
  - now rewrite bold_from_bol.
  - rewrite bold_here. destruct (startswith (x :: t) DSTAR); [|reflexivity].
    apply bold_tail_none. exact H.
Qed.

(** Where a [**] closes on the line, the text up to the first one is a
    group the lazy match stops at. *)
Lemma closes_first : forall r,
  closes r = true ->
  exists X rest,
    r = X ++ DSTAR ++ rest /\ no_nl X = true /\ has_dstar (X ++ [42]) = false.
Proof.
  induction r as [|x r IH]; intros H; [discriminate|].
  cbn [closes] in H. destruct (startswith (x :: r) DSTAR) eqn:E.
  - exists [], (skipn 2 (x :: r)). repeat split.
    now apply startswith_split in E.
  - cbn [orb] in H. apply andb_prop in H as [Hx Hr].
    destruct (IH Hr) as (X & rest & -> & Hn & Hd).
    exists (x :: X), rest. repeat split.
    + now rewrite no_nl_cons, Hx, Hn.
    + cbn [has_dstar app]. rewrite Hd, orb_false_r.
      change (x :: X ++ DSTAR ++ rest) with ((x :: X) ++ 42 :: 42 :: rest) in E.
      rewrite startswith_dstar_head in E. exact E.
Qed.

(** The three equations of the amended claim leave no choice: a function
    that copies the characters that open no span, replaces a span at the
    head of the text and goes on after it, is the emphasis substitution. *)
Lemma emphasis_equations_unique (f : str -> str) :
  f [] = [] ->
  (forall x t,
     startswith (x :: t) DSTAR && closes (skipn 2 (x :: t)) = false ->
     f (x :: t) = x :: f t) ->
  (forall X rest,
     no_nl X = true -> has_dstar (X ++ [42]) = false ->
     f (DSTAR ++ X ++ DSTAR ++ rest) = emphasis X ++ f rest) ->
  forall text, f text = sub_bold text.
Proof.
  intros Hnil Hcopy Hspan text.
  remember (length text) as n eqn:L. assert (Hle : (length text <= n)%nat) by lia.
  clear L. revert text Hle.
  induction n as [|n IH]; intros text L.
  - destruct text; [now rewrite Hnil | simpl in L; lia].
  - destruct text as [|x t]; [now rewrite Hnil|].
    destruct (startswith (x :: t) DSTAR && closes (skipn 2 (x :: t))) eqn:C.
    + apply andb_prop in C as [C1 C2].
      apply closes_first in C2 as (X & rest & E & Hn & Hd).
      apply startswith_split in C1. change (length DSTAR) with 2%nat in C1.
      rewrite E in C1. rewrite C1, (Hspan _ _ Hn Hd).
      unfold sub_bold. rewrite (bold_span _ _ _ Hn Hd).
      fold (sub_bold rest). rewrite IH; [reflexivity|].
      rewrite C1, !length_app in L. simpl in L. lia.
    + rewrite (Hcopy _ _ C), (bold_copy_char _ _ C). f_equal.
      apply IH. simpl in L. lia.
Qed.

(** C4 (amended): the emphasis substitution works line by line.  A [**X**]
    span whose [X] holds no newline and ends at the first [**] after the
    opening one is replaced by the emphasis of [X], the text before the
    first [**] being copied and the scan going on after the closing [**].
    A character that opens no such span, so every [**] that no [**] follows
    on its line, is copied and the scan goes on after it; a text without a
    [**] pair on one line, and a text that holds [**] once, is left as it
    is.  ["****"] becomes an empty emphasis element. *)
Theorem emphasis_spans_on_a_line :
  (forall text, sub_bold text = join_nl (map sub_bold (split_nl text)))
  /\ (forall a X rest,
        has_dstar (a ++ [42]) = false ->
        no_nl X = true -> has_dstar (X ++ [42]) = false ->
        sub_bold (a ++ DSTAR ++ X ++ DSTAR ++ rest) =
        a ++ emphasis X ++ sub_bold rest)
  /\ (forall x t,
        startswith (x :: t) DSTAR && closes (skipn 2 (x :: t)) = false ->
        sub_bold (x :: t) = x :: sub_bold t)
  /\ (forall text, has_bold_span text = false -> sub_bold text = text)
  /\ (forall text,
        occ_dstar text = 1%nat ->
        sub_bold text = text
        /\ format_markdown_to_html text =
           list_pass (sub_h1 (sub_h2 (sub_h3 text))))
  /\ sub_bold (py "****") = emphasis []
  /\ format_markdown_to_html (py "****") = paragraph (emphasis []).
Proof.
  split; [|split; [|split; [|split; [|split; [|split]]]]].
  - exact sub_bold_lines.
  - intros a X rest Ha Hn HX. unfold sub_bold.
    rewrite (bold_copy _ _ _ Ha), (bold_span _ _ _ Hn HX).
    unfold emphasis, wrap. now rewrite <- !app_assoc.
  - exact bold_copy_char.
  - intros text H. apply bold_no_span, H.
  - intros text H.
    assert (E : sub_bold text = text) by (apply bold_single; lia).
    split; [exact E|]. unfold format_markdown_to_html. now rewrite E.
  - vm_compute. reflexivity.
  - vm_compute. reflexivity.
Qed.

Lemma emphasis_spans_on_a_line_witness :
  sub_bold (py "a *b **c*d** e") =
    py "a *b " ++ emphasis (py "c*d") ++ sub_bold (py " e")
  /\ sub_bold (py "** 3" ++ NL :: py "**b**") =
       42 :: sub_bold (py "* 3" ++ NL :: py "**b**")
  /\ sub_bold (py "**a" ++ NL :: py "b**") = py "**a" ++ NL :: py "b**"
  /\ sub_bold (py "2 ** 3") = py "2 ** 3".
Proof.
  split; [|split; [|split]].
  - exact (proj1 (proj2 emphasis_spans_on_a_line)
             (py "a *b ") (py "c*d") (py " e") eq_refl eq_refl eq_refl).
  - exact (proj1 (proj2 (proj2 emphasis_spans_on_a_line))
             42 (py "* 3" ++ NL :: py "**b**") eq_refl).
  - exact (proj1 (proj2 (proj2 (proj2 emphasis_spans_on_a_line)))
             (py "**a" ++ NL :: py "b**") eq_refl).
  - exact (proj1 (proj1 (proj2 (proj2 (proj2 (proj2 emphasis_spans_on_a_line))))
                    (py "2 ** 3") eq_refl)).
Defined.

(** A span after an unclosed [**] of an earlier line is replaced all the
    same. *)
Example emphasis_after_unclosed :
  sub_bold (py "2 ** 3" ++ NL :: py "**b**") =
  py "2 ** 3" ++ NL :: emphasis (py "b").
Proof. vm_compute. reflexivity. Qed.

End Emphasis.
